(** * react-notify: the notification synchronisation logic of [src/App.jsx]

    A shallow embedding of the React component [NotificationApp] and of the
    hook [useWebSocket]: JavaScript values, the notification list kept in
    React state, the [async] handlers as resumptions that suspend at every
    [await], and the browser's event loop as a step function over events
    (settled requests, WebSocket events, timers, clicks). *)

From Stdlib Require Import ZArith List Bool Lia.
From stdpp Require Import gmap strings list fin_maps.
Import ListNotations.
Local Open Scope string_scope.

(** ** JavaScript values *)

Module JS.

(** The values the component touches. Objects and arrays held inside a
    record (the [data] payload, say) are references: the component never
    looks inside them, and [===] compares them by identity. Numbers are the
    integers (JSON ids); there is no NaN in JSON. *)
Inductive jsval : Type :=
| JUndefined
| JNull
| JBool (b : bool)
| JNum (n : Z)
| JStr (s : string)
| JRef (addr : nat).

#[export] Instance jsval_eq_dec : EqDecision jsval.
Proof. solve_decision. Defined.

(** [!!v] of JavaScript, negated twice. *)
Definition truthy (v : jsval) : bool :=
  match v with
  | JUndefined | JNull => false
  | JBool b => b
  | JNum n => negb (n =? 0)%Z
  | JStr s => negb (String.eqb s "")
  | JRef _ => true
  end.

(** [a === b]. *)
Definition strict_eq (a b : jsval) : bool := bool_decide (a = b).

(** [a || b]. *)
Definition js_or (a b : jsval) : jsval := if truthy a then a else b.

(** A plain object: property name to value. *)
Abbreviation jsobj := (gmap string jsval).

(** [o.k] on an object: a missing property reads as [undefined]. *)
Definition get (o : jsobj) (k : string) : jsval := default JUndefined (o !! k).

(** What a handler can throw: the name of the exception and its message. *)
Inductive exn : Type :=
| Exn (name : string) (message : string).

(** [new Error(message)]. *)
Definition Error (message : string) : exn := Exn "Error" message.

(** Reading a property of [null] or [undefined]. *)
Definition TypeError : exn :=
  Exn "TypeError" "Cannot read properties of null or undefined".

(** [JSON.parse] on a text that is not JSON. *)
Definition SyntaxError : exn := Exn "SyntaxError" "Unexpected token in JSON".

(** [error.message || fallback]. *)
Definition message_or (e : exn) (fallback : string) : string :=
  match e with
  | Exn _ m => if String.eqb m "" then fallback else m
  end.

(** The objects reachable from a parsed JSON text, by address. *)
Abbreviation heap := (gmap nat (gmap string jsval)).

(** [v.k] on any value: throws a TypeError on [null] and [undefined], reads
    the property of an object, and is [undefined] on the other primitives
    (none of the names the component reads is defined on them). *)
Definition prop (h : heap) (v : jsval) (k : string) : exn + jsval :=
  match v with
  | JUndefined | JNull => inl TypeError
  | JRef a => inr (match h !! a with Some o => get o k | None => JUndefined end)
  | JBool _ | JNum _ | JStr _ => inr JUndefined
  end.

End JS.
Import JS.

(** ** The notification list and its updater functions *)

(** [(n) => !n.read && !n.is_read], the filter of markAllAsRead and of
    unreadCount. *)
Definition unread (n : jsobj) : bool :=
  negb (truthy (get n "read")) && negb (truthy (get n "is_read")).

(** [{ ...notif, read: true, is_read: true }]. *)
Definition with_read (notif : jsobj) : jsobj :=
  <["is_read" := JBool true]> (<["read" := JBool true]> notif).

(** The updater of handleNewNotification:
    [(prev) => prev.some((n) => n.id === notification.id) ? prev
               : [notification, ...prev]]. *)
Definition handleNewNotification_update
    (notification : jsobj) (prev : list jsobj) : list jsobj :=
  let exists_ :=
    existsb (fun n => strict_eq (get n "id") (get notification "id")) prev in
  if exists_ then prev else notification :: prev.

(** The updater of markAsRead:
    [prev.map((notif) => notif.id === notificationId
                         ? { ...notif, read: true, is_read: true } : notif)]. *)
Definition markAsRead_update
    (notificationId : jsval) (prev : list jsobj) : list jsobj :=
  map (fun notif =>
         if strict_eq (get notif "id") notificationId
         then with_read notif else notif) prev.

(** The updater of deleteNotification:
    [prev.filter((notif) => notif.id !== notificationId)]. *)
Definition deleteNotification_update
    (notificationId : jsval) (prev : list jsobj) : list jsobj :=
  List.filter (fun notif => negb (strict_eq (get notif "id") notificationId)) prev.

(** The updater of markAllAsRead:
    [prev.map((notif) => ({ ...notif, read: true, is_read: true }))]. *)
Definition markAllAsRead_update (prev : list jsobj) : list jsobj :=
  map with_read prev.

(** What [api.getNotifications()] can resolve to, as far as the component
    looks at it. *)
Inductive notifications_data : Type :=
| NDNull
| NDArray (items : list jsobj)
| NDObject (notifications_field : option (list jsobj))
| NDOther.

(** [Array.isArray(notificationsData.notifications)
      ? notificationsData.notifications
      : Array.isArray(notificationsData) ? notificationsData : []];
    reading a property of [null] throws. *)
Definition notificationsList (notificationsData : notifications_data)
  : exn + list jsobj :=
  match notificationsData with
  | NDNull => inl TypeError
  | NDObject (Some l) => inr l
  | NDObject None => inr []
  | NDArray l => inr l
  | NDOther => inr []
  end.

(** ** Browser and component state *)

(** [Notification.permission]. *)
Inductive permission : Type := PermDefault | PermGranted | PermDenied.

(** [WebSocket.readyState]. *)
Inductive ready_state : Type := CONNECTING | OPEN | CLOSING | CLOSED.

#[export] Instance ready_state_eq_dec : EqDecision ready_state.
Proof. solve_decision. Defined.

(** A WebSocket the hook constructed; its handle is its position in
    [websockets]. *)
Record websocket : Type := {
  ws_url : string;
  readyState : ready_state
}.

(** What lives outside React: [localStorage], the Notification API, the
    sockets, the timers and the console. *)
Record browser : Type := {
  token : option string;            (* localStorage[TOKEN_KEY] *)
  permission_state : permission;    (* Notification.permission *)
  permission_requested : bool;      (* Notification.requestPermission() was called *)
  websockets : list websocket;      (* every [new WebSocket(wsUrl)] so far *)
  sent : list (nat * jsval);        (* socket.send of a mark_read frame: handle, id *)
  timers : list Z;                  (* pending setTimeout callbacks, by delay in ms *)
  alerts : list (jsval * jsval);    (* new Notification(title, { body }) *)
  console : list string             (* first argument of console.log / console.error *)
}.

(** The [useState] cells of NotificationApp. *)
Record component : Type := {
  user : option jsobj;
  notifications : list jsobj;
  loading : bool;
  showNotifications : bool;
  error : option string
}.

(** The [useState] cells of useWebSocket, and what React remembers of its
    effect: the value of the [userId] dependency at its last run and the
    socket its cleanup closes. *)
Record hook : Type := {
  socket : option nat;
  isConnected : bool;
  connectionError : option string;
  effect_userId : jsval;
  effect_ws : option nat
}.

Record app : Type := {
  env : browser;
  comp : component;
  ws_hook : hook
}.

Definition on_env (f : browser -> browser) (s : app) : app :=
  {| env := f (env s); comp := comp s; ws_hook := ws_hook s |}.
Definition on_comp (f : component -> component) (s : app) : app :=
  {| env := env s; comp := f (comp s); ws_hook := ws_hook s |}.
Definition on_hook (f : hook -> hook) (s : app) : app :=
  {| env := env s; comp := comp s; ws_hook := f (ws_hook s) |}.

Definition env_set_token (v : option string) (b : browser) : browser :=
  {| token := v; permission_state := permission_state b;
     permission_requested := permission_requested b; websockets := websockets b;
     sent := sent b; timers := timers b; alerts := alerts b; console := console b |}.
Definition env_set_permission (v : permission) (b : browser) : browser :=
  {| token := token b; permission_state := v;
     permission_requested := permission_requested b; websockets := websockets b;
     sent := sent b; timers := timers b; alerts := alerts b; console := console b |}.
Definition env_set_requested (v : bool) (b : browser) : browser :=
  {| token := token b; permission_state := permission_state b;
     permission_requested := v; websockets := websockets b;
     sent := sent b; timers := timers b; alerts := alerts b; console := console b |}.
Definition env_set_websockets (v : list websocket) (b : browser) : browser :=
  {| token := token b; permission_state := permission_state b;
     permission_requested := permission_requested b; websockets := v;
     sent := sent b; timers := timers b; alerts := alerts b; console := console b |}.
Definition env_set_sent (v : list (nat * jsval)) (b : browser) : browser :=
  {| token := token b; permission_state := permission_state b;
     permission_requested := permission_requested b; websockets := websockets b;
     sent := v; timers := timers b; alerts := alerts b; console := console b |}.
Definition env_set_timers (v : list Z) (b : browser) : browser :=
  {| token := token b; permission_state := permission_state b;
     permission_requested := permission_requested b; websockets := websockets b;
     sent := sent b; timers := v; alerts := alerts b; console := console b |}.
Definition env_set_alerts (v : list (jsval * jsval)) (b : browser) : browser :=
  {| token := token b; permission_state := permission_state b;
     permission_requested := permission_requested b; websockets := websockets b;
     sent := sent b; timers := timers b; alerts := v; console := console b |}.
Definition env_set_console (v : list string) (b : browser) : browser :=
  {| token := token b; permission_state := permission_state b;
     permission_requested := permission_requested b; websockets := websockets b;
     sent := sent b; timers := timers b; alerts := alerts b; console := v |}.

Definition comp_set_user (v : option jsobj) (c : component) : component :=
  {| user := v; notifications := notifications c; loading := loading c;
     showNotifications := showNotifications c; error := error c |}.
Definition comp_set_notifications (v : list jsobj) (c : component) : component :=
  {| user := user c; notifications := v; loading := loading c;
     showNotifications := showNotifications c; error := error c |}.
Definition comp_set_loading (v : bool) (c : component) : component :=
  {| user := user c; notifications := notifications c; loading := v;
     showNotifications := showNotifications c; error := error c |}.
Definition comp_set_showNotifications (v : bool) (c : component) : component :=
  {| user := user c; notifications := notifications c; loading := loading c;
     showNotifications := v; error := error c |}.
Definition comp_set_error (v : option string) (c : component) : component :=
  {| user := user c; notifications := notifications c; loading := loading c;
     showNotifications := showNotifications c; error := v |}.

Definition hook_set_socket (v : option nat) (h : hook) : hook :=
  {| socket := v; isConnected := isConnected h;
     connectionError := connectionError h;
     effect_userId := effect_userId h; effect_ws := effect_ws h |}.
Definition hook_set_isConnected (v : bool) (h : hook) : hook :=
  {| socket := socket h; isConnected := v;
     connectionError := connectionError h;
     effect_userId := effect_userId h; effect_ws := effect_ws h |}.
Definition hook_set_connectionError (v : option string) (h : hook) : hook :=
  {| socket := socket h; isConnected := isConnected h;
     connectionError := v;
     effect_userId := effect_userId h; effect_ws := effect_ws h |}.
Definition hook_set_effect (uid : jsval) (ws : option nat) (h : hook) : hook :=
  {| socket := socket h; isConnected := isConnected h;
     connectionError := connectionError h;
     effect_userId := uid; effect_ws := ws |}.

(** The setters of the component, on the whole state. *)
Definition setUser (v : option jsobj) : app -> app := on_comp (comp_set_user v).
Definition setNotifications (v : list jsobj) : app -> app :=
  on_comp (comp_set_notifications v).
Definition setNotifications_with (f : list jsobj -> list jsobj) : app -> app :=
  on_comp (fun c => comp_set_notifications (f (notifications c)) c).
Definition setLoading (v : bool) : app -> app := on_comp (comp_set_loading v).
Definition setShowNotifications (v : bool) : app -> app :=
  on_comp (comp_set_showNotifications v).
Definition setError (v : option string) : app -> app := on_comp (comp_set_error v).
Definition setSocket (v : option nat) : app -> app := on_hook (hook_set_socket v).
Definition setIsConnected (v : bool) : app -> app := on_hook (hook_set_isConnected v).
Definition setConnectionError (v : option string) : app -> app :=
  on_hook (hook_set_connectionError v).

Definition console_log (msg : string) : app -> app :=
  on_env (fun b => env_set_console (console b ++ [msg]) b).
Definition console_error (msg : string) : app -> app := console_log msg.

(** [getAuthToken], [setAuthToken], [removeAuthToken]. *)
Definition getAuthToken (s : app) : option string := token (env s).
Definition setAuthToken (tok : string) : app -> app :=
  on_env (env_set_token (Some tok)).
Definition removeAuthToken : app -> app := on_env (env_set_token None).

(** [!token] for what [localStorage.getItem] returns. *)
Definition no_token (tok : option string) : bool :=
  match tok with
  | None => true
  | Some t => String.eqb t ""
  end.

(** The store of the specification is the [notifications] cell. *)
Definition store (s : app) : list jsobj := notifications (comp s).

(** ** Asynchronous handlers as resumptions

    An [async] function is a [task]: synchronous steps on the state, and
    requests at which it suspends until the browser settles them. One
    constructor per [api] function, carrying the rest of the handler. *)

Inductive outcome (A : Type) : Type :=
| Fulfilled (a : A)
| Rejected (e : exn).
Arguments Fulfilled {A} a.
Arguments Rejected {A} e.

Inductive task (A : Type) : Type :=
| Ret (a : A)
| Throw (e : exn)
| Act (f : app -> app) (k : task A)
| Get (k : app -> task A)
| Fetch_login (email password : string) (k : outcome string -> task A)
| Fetch_profile (k : outcome jsobj -> task A)
| Fetch_notifications (k : outcome notifications_data -> task A)
| Fetch_read (notificationId : jsval) (k : outcome unit -> task A)
| Fetch_delete (notificationId : jsval) (k : outcome unit -> task A)
| Promise_all_read (ids : list jsval) (k : outcome unit -> task A).
Arguments Ret {A} a.
Arguments Throw {A} e.
Arguments Act {A} f k.
Arguments Get {A} k.
Arguments Fetch_login {A} email password k.
Arguments Fetch_profile {A} k.
Arguments Fetch_notifications {A} k.
Arguments Fetch_read {A} notificationId k.
Arguments Fetch_delete {A} notificationId k.
Arguments Promise_all_read {A} ids k.

Fixpoint task_bind {A B : Type} (f : A -> task B) (t : task A) : task B :=
  match t with
  | Ret a => f a
  | Throw e => Throw e
  | Act g k => Act g (task_bind f k)
  | Get k => Get (fun s => task_bind f (k s))
  | Fetch_login em pw k => Fetch_login em pw (fun o => task_bind f (k o))
  | Fetch_profile k => Fetch_profile (fun o => task_bind f (k o))
  | Fetch_notifications k => Fetch_notifications (fun o => task_bind f (k o))
  | Fetch_read i k => Fetch_read i (fun o => task_bind f (k o))
  | Fetch_delete i k => Fetch_delete i (fun o => task_bind f (k o))
  | Promise_all_read ids k => Promise_all_read ids (fun o => task_bind f (k o))
  end.

#[export] Instance task_mret : MRet task := @Ret.
#[export] Instance task_mbind : MBind task := @task_bind.

(** [try { t } catch (error) { h error }]. *)
Fixpoint try_catch {A : Type} (t : task A) (h : exn -> task A) : task A :=
  match t with
  | Ret a => Ret a
  | Throw e => h e
  | Act g k => Act g (try_catch k h)
  | Get k => Get (fun s => try_catch (k s) h)
  | Fetch_login em pw k => Fetch_login em pw (fun o => try_catch (k o) h)
  | Fetch_profile k => Fetch_profile (fun o => try_catch (k o) h)
  | Fetch_notifications k => Fetch_notifications (fun o => try_catch (k o) h)
  | Fetch_read i k => Fetch_read i (fun o => try_catch (k o) h)
  | Fetch_delete i k => Fetch_delete i (fun o => try_catch (k o) h)
  | Promise_all_read ids k => Promise_all_read ids (fun o => try_catch (k o) h)
  end.

(** [try { t } finally { fin }]: [fin] runs on both exits, and the exit of
    [t] stands. *)
Fixpoint finally {A : Type} (t : task A) (fin : task unit) : task A :=
  match t with
  | Ret a => fin;; Ret a
  | Throw e => fin;; Throw e
  | Act g k => Act g (finally k fin)
  | Get k => Get (fun s => finally (k s) fin)
  | Fetch_login em pw k => Fetch_login em pw (fun o => finally (k o) fin)
  | Fetch_profile k => Fetch_profile (fun o => finally (k o) fin)
  | Fetch_notifications k => Fetch_notifications (fun o => finally (k o) fin)
  | Fetch_read i k => Fetch_read i (fun o => finally (k o) fin)
  | Fetch_delete i k => Fetch_delete i (fun o => finally (k o) fin)
  | Promise_all_read ids k => Promise_all_read ids (fun o => finally (k o) fin)
  end.

(** One synchronous statement. *)
Definition act (f : app -> app) : task unit := Act f (Ret tt).

(** [await p]: the value of a fulfilled promise, the exception of a rejected
    one. *)
Definition await {A : Type} (o : outcome A) : task A :=
  match o with
  | Fulfilled a => Ret a
  | Rejected e => Throw e
  end.

(** A synchronous expression that may throw. *)
Definition eval {A : Type} (r : exn + A) : task A :=
  match r with
  | inl e => Throw e
  | inr a => Ret a
  end.

(** *** The [api] object

    Each function reads the token, performs one [fetch] and throws when the
    response is not ok; the browser decides the outcome. [api.login] also
    stores the token of a successful response. *)

Definition api_login (email password : string) : task string :=
  Fetch_login email password (fun o =>
    access_token ← await o;
    act (console_log "Login response:");;
    act (setAuthToken access_token);;
    Ret access_token).

Definition api_getProfile : task jsobj := Fetch_profile await.
Definition api_getNotifications : task notifications_data :=
  Fetch_notifications await.
Definition api_markNotificationAsRead (notificationId : jsval) : task unit :=
  Fetch_read notificationId await.
Definition api_deleteNotification (notificationId : jsval) : task unit :=
  Fetch_delete notificationId await.

(** [Promise.all(unreadNotifications.map((notification) =>
       api.markNotificationAsRead(notification.id)))]: one request per id,
    all issued at once. *)
Definition promise_all_markNotificationAsRead (ids : list jsval) : task unit :=
  Promise_all_read ids await.

(** *** The handlers of NotificationApp *)

Definition loadUserProfile : task unit :=
  finally
    (try_catch
       (act (setLoading true);;
        profileData ← api_getProfile;
        act (setUser (Some profileData));;
        notificationsData ← api_getNotifications;
        notificationsList_ ← eval (notificationsList notificationsData);
        act (setNotifications notificationsList_);;
        act (setError None))
       (fun error_ =>
          act (console_error "Failed to load profile:");;
          act (setError (Some "Failed to load user data"));;
          act removeAuthToken;;
          act (setUser None);;
          Throw error_))
    (act (setLoading false)).

Definition initializeApp : task unit :=
  Get (fun s =>
    (if no_token (getAuthToken s) then Ret tt
     else
       try_catch loadUserProfile
         (fun error_ =>
            act (console_error "Failed to load user data on mount:");;
            act removeAuthToken;;
            act (setUser None)));;
    act (setLoading false)).

Definition handleLogin (email password : string) : task unit :=
  act (setLoading true);;
  act (setError None);;
  finally
    (try_catch
       (api_login email password;;
        profileData ← api_getProfile;
        act (setUser (Some profileData));;
        notificationsData ← api_getNotifications;
        notificationsList_ ← eval (notificationsList notificationsData);
        act (setNotifications notificationsList_))
       (fun error_ =>
          act (console_error "Login failed:");;
          act (setError (Some (message_or error_ "Login failed")))))
    (act (setLoading false)).

Definition handleLogout (s : app) : app :=
  setError None
    (setShowNotifications false
       (setNotifications [] (setUser None (removeAuthToken s)))).

(** [new Notification(notification.title, { body: notification.message })]. *)
Definition show_alert (title body : jsval) : app -> app :=
  on_env (fun b => env_set_alerts (alerts b ++ [(title, body)]) b).

Definition handleNewNotification (notification : jsobj) (s : app) : app :=
  let s := console_log "Adding new notification to state:" s in
  let s := setNotifications_with (handleNewNotification_update notification) s in
  match permission_state (env s) with
  | PermGranted =>
      show_alert (get notification "title") (get notification "message") s
  | PermDefault | PermDenied => s
  end.

(** [sendMessage] of the hook, for the socket of the render that created it:
    [if (socket && socket.readyState === WebSocket.OPEN) socket.send(...)].
    The only message the component sends is
    [{ type: "mark_read", notification_id }]. *)
Definition sendMessage (sock : option nat) (notification_id : jsval) (s : app) : app :=
  match sock with
  | None => s
  | Some h =>
      match websockets (env s) !! h with
      | Some ws =>
          if bool_decide (readyState ws = OPEN)
          then on_env (fun b => env_set_sent (sent b ++ [(h, notification_id)]) b) s
          else s
      | None => s
      end
  end.

(** The handler closes over the [sendMessage] of the render in which it was
    created, hence over that render's [socket]. *)
Definition markAsRead (notificationId : jsval) : task unit :=
  Get (fun render =>
    try_catch
      (api_markNotificationAsRead notificationId;;
       act (setNotifications_with (markAsRead_update notificationId));;
       act (sendMessage (socket (ws_hook render)) notificationId))
      (fun error_ =>
         act (console_error "Failed to mark notification as read:"))).

Definition deleteNotification (notificationId : jsval) : task unit :=
  try_catch
    (api_deleteNotification notificationId;;
     act (setNotifications_with (deleteNotification_update notificationId)))
    (fun error_ => act (console_error "Failed to delete notification:")).

(** [notifications] is the list of the render in which the handler was
    created; the updater after the [await] works on the list of that time. *)
Definition markAllAsRead : task unit :=
  Get (fun render =>
    let unreadNotifications := List.filter unread (notifications (comp render)) in
    try_catch
      (promise_all_markNotificationAsRead
         (map (fun notification => get notification "id") unreadNotifications);;
       act (setNotifications_with markAllAsRead_update))
      (fun error_ =>
         act (console_error "Failed to mark all notifications as read:"))).

(** [notifications.filter((n) => !n.is_read && !n.read).length]. *)
Definition unreadCount (s : app) : nat := length (List.filter unread (store s)).

(** ** The hook useWebSocket *)

Definition WS_BASE_URL : string := "ws://localhost:8000".

(** [user?.id], the first argument of the hook. *)
Definition userId_of (s : app) : jsval :=
  match user (comp s) with
  | Some u => get u "id"
  | None => JUndefined
  end.

Definition set_readyState (h : nat) (r : ready_state) : app -> app :=
  on_env (fun b =>
    env_set_websockets
      (alter (fun ws => {| ws_url := ws_url ws; readyState := r |}) h (websockets b)) b).

Definition readyState_of (h : nat) (s : app) : option ready_state :=
  readyState <$> websockets (env s) !! h.

(** The cleanup the effect returns:
    [if (ws.readyState === WebSocket.OPEN) ws.close(1000, ...)];
    a socket asked to close is CLOSING until its close event. An effect run
    that returned early has no cleanup. *)
Definition useWebSocket_cleanup (s : app) : app :=
  match effect_ws (ws_hook s) with
  | Some h =>
      match readyState_of h s with
      | Some OPEN => set_readyState h CLOSING s
      | _ => s
      end
  | None => s
  end.

(** The body of the effect up to [new WebSocket(wsUrl)]; the handlers it
    installs are [ws_onopen], [ws_onmessage], [ws_onclose], [ws_onerror]
    below. Returns the handle of the socket it created, if any. *)
Definition useWebSocket_effect (userId : jsval) (s : app) : app * option nat :=
  if negb (truthy userId) then (s, None)
  else
    match getAuthToken s with
    | Some tok =>
        if no_token (Some tok)
        then (setConnectionError (Some "No authentication token") s, None)
        else
          let wsUrl := WS_BASE_URL ++ "/ws/notifications/?token=" ++ tok in
          let s := console_log "Connecting to WebSocket:" s in
          let h := length (websockets (env s)) in
          (on_env (fun b =>
             env_set_websockets
               (websockets b ++ [{| ws_url := wsUrl; readyState := CONNECTING |}]) b) s,
           Some h)
    | None => (setConnectionError (Some "No authentication token") s, None)
    end.

(** React after a handler has run: the effect of the hook runs again when
    its dependency [userId] changed ([onMessage] is a [useCallback] with no
    dependencies and never changes), after the cleanup of its previous run. *)
Definition commit (s : app) : app :=
  let userId := userId_of s in
  if bool_decide (userId = effect_userId (ws_hook s)) then s
  else
    let s := useWebSocket_cleanup s in
    let '(s, ws) := useWebSocket_effect userId s in
    on_hook (hook_set_effect userId ws) s.

Definition ws_onopen (h : nat) (s : app) : app :=
  setSocket (Some h)
    (setConnectionError None
       (setIsConnected true (console_log "WebSocket connected" s))).

(** What [JSON.parse(event.data)] does on a frame: a SyntaxError, or a value
    together with the objects it refers to. *)
Inductive frame : Type :=
| Unparseable
| Parsed (data : jsval) (h : heap).

(** [Date.now().toString()] and the two [new Date().toISOString()] of one
    handler run. *)
Record clock : Type := {
  now_string : string;
  iso_timestamp : string;
  iso_created_at : string
}.

(** The object literal passed to [onMessage]. *)
Definition pushed_record (h : heap) (notificationData : jsval) (clk : clock)
  : exn + jsobj :=
  match prop h notificationData "id",
        prop h notificationData "title",
        prop h notificationData "message",
        prop h notificationData "type",
        prop h notificationData "notification_type",
        prop h notificationData "data",
        prop h notificationData "created_at" with
  | inr id_, inr title, inr message, inr type_, inr notification_type,
    inr data_, inr created_at =>
      inr (<["id" := js_or id_ (JStr (now_string clk))]>
          (<["title" := title]>
          (<["message" := message]>
          (<["notification_type" := js_or type_ notification_type]>
          (<["data" := data_]>
          (<["timestamp" := js_or created_at (JStr (iso_timestamp clk))]>
          (<["created_at" := js_or created_at (JStr (iso_created_at clk))]>
          (<["read" := JBool false]>
          (<["is_read" := JBool false]> ∅)))))))))
  | inl e, _, _, _, _, _, _ => inl e
  | _, inl e, _, _, _, _, _ => inl e
  | _, _, inl e, _, _, _, _ => inl e
  | _, _, _, inl e, _, _, _ => inl e
  | _, _, _, _, inl e, _, _ => inl e
  | _, _, _, _, _, inl e, _ => inl e
  | _, _, _, _, _, _, inl e => inl e
  end.

(** How a synchronous handler ends: normally, or with an exception that
    escapes it. *)
Inductive completion : Type :=
| Normal (s : app)
| Thrown (e : exn) (s : app).

(** The [try] block of [ws.onmessage]. *)
Definition ws_onmessage_try
    (onMessage : jsobj -> app -> app) (event_data : frame) (clk : clock) (s : app)
  : completion :=
  match event_data with
  | Unparseable => Thrown SyntaxError s
  | Parsed data h =>
      let s := console_log "Received WebSocket message:" s in
      match prop h data "type" with
      | inl e => Thrown e s
      | inr ty =>
          if strict_eq ty (JStr "notification") then
            match prop h data "data" with
            | inl e => Thrown e s
            | inr notificationData =>
                match pushed_record h notificationData clk with
                | inl e => Thrown e s
                | inr notification => Normal (onMessage notification s)
                end
            end
          else if strict_eq ty (JStr "unread_count") then
            Normal (console_log "Unread count:" s)
          else Normal s
      end
  end.

(** [ws.onmessage]: the [try] block and its [catch], which only logs. *)
Definition ws_onmessage
    (onMessage : jsobj -> app -> app) (event_data : frame) (clk : clock) (s : app)
  : completion :=
  match ws_onmessage_try onMessage event_data clk s with
  | Normal s' => Normal s'
  | Thrown _ s' => Normal (console_error "Error parsing WebSocket message:" s')
  end.

(** [setTimeout(callback, delay)]; every callback the component schedules is
    [reconnect_callback]. *)
Definition setTimeout (delay : Z) : app -> app :=
  on_env (fun b => env_set_timers (timers b ++ [delay]) b).

(** [() => { console.log("Attempting to reconnect..."); }]. *)
Definition reconnect_callback (s : app) : app :=
  console_log "Attempting to reconnect..." s.

Definition ws_onclose (code : Z) (s : app) : app :=
  let s := console_log "WebSocket closed:" s in
  let s := setIsConnected false s in
  let s := setSocket None s in
  if negb (code =? 1000)%Z then setTimeout 5000 s else s.

Definition ws_onerror (s : app) : app :=
  setIsConnected false
    (setConnectionError (Some "Connection failed")
       (console_error "WebSocket error:" s)).

(** ** The event loop *)

(** The state, and the handlers suspended at a request that has not settled
    yet. *)
Record world : Type := {
  app_state : app;
  inflight : list (task unit)
}.

(** Runs a handler up to its next [await] (or to its end; an exception that
    nobody catches ends it). *)
Fixpoint advance (t : task unit) (s : app) : app * option (task unit) :=
  match t with
  | Ret _ => (s, None)
  | Throw _ => (s, None)
  | Act f k => advance k (f s)
  | Get k => advance (k s) s
  | Fetch_login _ _ _ | Fetch_profile _ | Fetch_notifications _
  | Fetch_read _ _ | Fetch_delete _ _ | Promise_all_read _ _ => (s, Some t)
  end.

(** Calls a handler: it runs to its first [await] and, if it got there, joins
    the suspended ones. *)
Definition spawn (t : task unit) (w : world) : world :=
  let '(s, p) := advance t (app_state w) in
  {| app_state := s; inflight := inflight w ++ option_list p |}.

(** A synchronous handler. *)
Definition sync (f : app -> app) (w : world) : world :=
  {| app_state := f (app_state w); inflight := inflight w |}.

(** How the browser settles a request. *)
Inductive response : Type :=
| Login_settled (o : outcome string)
| Profile_settled (o : outcome jsobj)
| Notifications_settled (o : outcome notifications_data)
| Read_settled (o : outcome unit)
| Delete_settled (o : outcome unit)
| All_settled (os : list (outcome unit)).

(** [Promise.all]: fulfilled when every promise is, rejected with a
    rejection of one of them otherwise. *)
Fixpoint promise_all (os : list (outcome unit)) : outcome unit :=
  match os with
  | [] => Fulfilled tt
  | Fulfilled _ :: os' => promise_all os'
  | Rejected e :: _ => Rejected e
  end.

(** The rest of a suspended handler once its request has settled; [None]
    when the response is not one for this request. *)
Definition resume (t : task unit) (r : response) : option (task unit) :=
  match t, r with
  | Fetch_login _ _ k, Login_settled o => Some (k o)
  | Fetch_profile k, Profile_settled o => Some (k o)
  | Fetch_notifications k, Notifications_settled o => Some (k o)
  | Fetch_read _ k, Read_settled o => Some (k o)
  | Fetch_delete _ k, Delete_settled o => Some (k o)
  | Promise_all_read ids k, All_settled os =>
      if (length os =? length ids)%nat then Some (k (promise_all os)) else None
  | _, _ => None
  end.

Definition settle (i : nat) (r : response) (w : world) : option world :=
  t ← inflight w !! i;
  t' ← resume t r;
  Some (spawn t' {| app_state := app_state w; inflight := delete i (inflight w) |}).

Inductive event : Type :=
| Settle (i : nat) (r : response)
| WsOpen (h : nat)
| WsMessage (h : nat) (event_data : frame) (clk : clock)
| WsClose (h : nat) (code : Z)
| WsError (h : nat)
| TimerFire (i : nat)
| PermissionDecided (granted : bool)
| SubmitLogin (email password : string)
| ClickLogout
| ClickBell
| ClickCloseToast
| ClickMarkAsRead (notificationId : jsval)
| ClickDelete (notificationId : jsval)
| ClickMarkAllAsRead.

(** What NotificationApp renders: the spinner while [loading], the login
    form without a user, the notification centre otherwise. *)
Definition shows_login (s : app) : bool :=
  negb (loading (comp s)) && bool_decide (user (comp s) = None).
Definition shows_centre (s : app) : bool :=
  negb (loading (comp s)) && negb (bool_decide (user (comp s) = None)).

(** The handler an event runs. [None] when the event cannot happen in this
    state: no such request, socket or timer, or the control is not on
    screen. *)
Definition handle (ev : event) (w : world) : option world :=
  let s := app_state w in
  match ev with
  | Settle i r => settle i r w
  | WsOpen h =>
      match readyState_of h s with
      | Some CONNECTING => Some (sync (fun s => ws_onopen h (set_readyState h OPEN s)) w)
      | _ => None
      end
  | WsMessage h event_data clk =>
      match readyState_of h s with
      | Some OPEN =>
          match ws_onmessage handleNewNotification event_data clk s with
          | Normal s' => Some (sync (fun _ => s') w)
          | Thrown _ s' => Some (sync (fun _ => s') w)
          end
      | _ => None
      end
  | WsClose h code =>
      match readyState_of h s with
      | Some CONNECTING | Some OPEN | Some CLOSING =>
          Some (sync (fun s => ws_onclose code (set_readyState h CLOSED s)) w)
      | _ => None
      end
  | WsError h =>
      match readyState_of h s with
      | Some CONNECTING | Some OPEN | Some CLOSING => Some (sync ws_onerror w)
      | _ => None
      end
  | TimerFire i =>
      match timers (env s) !! i with
      | Some _ =>
          Some (sync (fun s =>
                  reconnect_callback
                    (on_env (fun b => env_set_timers (delete i (timers b)) b) s)) w)
      | None => None
      end
  | PermissionDecided granted =>
      match permission_state (env s), permission_requested (env s) with
      | PermDefault, true =>
          Some (sync (on_env (env_set_permission
                                (if granted then PermGranted else PermDenied))) w)
      | _, _ => None
      end
  | SubmitLogin email password =>
      if shows_login s then Some (spawn (handleLogin email password) w) else None
  | ClickLogout =>
      if shows_centre s then Some (sync handleLogout w) else None
  | ClickBell =>
      if shows_centre s
      then Some (sync (fun s => setShowNotifications
                                  (negb (showNotifications (comp s))) s) w)
      else None
  | ClickCloseToast =>
      if shows_centre s && showNotifications (comp s)
         && negb (length (store s) =? 0)%nat
      then Some (sync (setShowNotifications false) w) else None
  | ClickMarkAsRead notificationId =>
      if shows_centre s then Some (spawn (markAsRead notificationId) w) else None
  | ClickDelete notificationId =>
      if shows_centre s then Some (spawn (deleteNotification notificationId) w) else None
  | ClickMarkAllAsRead =>
      if shows_centre s && negb (unreadCount s =? 0)%nat
      then Some (spawn markAllAsRead w) else None
  end.

(** One turn of the event loop: the handler, then React's commit. *)
Definition step (ev : event) (w : world) : option world :=
  sync commit <$> handle ev w.

Fixpoint run (evs : list event) (w : world) : option world :=
  match evs with
  | [] => Some w
  | ev :: evs' => w' ← step ev w; run evs' w'
  end.

(** The state before the first render, for what [localStorage] and the
    Notification API hold. *)
Definition initial_app (tok : option string) (perm : permission) : app :=
  {| env := {| token := tok; permission_state := perm;
               permission_requested := false; websockets := [];
               sent := []; timers := []; alerts := []; console := [] |};
     comp := {| user := None; notifications := []; loading := true;
                showNotifications := false; error := None |};
     ws_hook := {| socket := None; isConnected := false;
                   connectionError := None;
                   effect_userId := JUndefined; effect_ws := None |} |}.

(** [Notification.permission === "default"], then
    [Notification.requestPermission()]. *)
Definition request_permission_effect (s : app) : app :=
  match permission_state (env s) with
  | PermDefault => on_env (env_set_requested true) s
  | PermGranted | PermDenied => s
  end.

(** The first render and its effects, in the order of the source:
    [initializeApp], the effect of useWebSocket (which returns at once:
    there is no user yet), the permission request. *)
Definition mount (tok : option string) (perm : permission) : world :=
  sync (fun s => commit (request_permission_effect s))
    (spawn initializeApp {| app_state := initial_app tok perm; inflight := [] |}).

(** ** Sample data for the examples *)

Definition sample_record (i : Z) (is_read_ : bool) : jsobj :=
  <["id" := JNum i]>
    (<["title" := JStr "Build finished"]>
       (<["message" := JStr "Pipeline 12 passed"]>
          (<["is_read" := JBool is_read_]> ∅))).

Definition sample_profile : jsobj :=
  <["id" := JNum 1]> (<["email" := JStr "user@example.com"]> ∅).

(** The frame [{"type": ty, "data": {"id": i, "title": "Deploy"}}]. *)
Definition sample_frame (ty : string) (i : Z) : frame :=
  Parsed (JRef 0)
    (<[0%nat := <["type" := JStr ty]> (<["data" := JRef 1]> ∅)]>
       (<[1%nat := <["id" := JNum i]> (<["title" := JStr "Deploy"]> ∅)]> ∅)).

Definition sample_clock : clock :=
  {| now_string := "1767225600000";
     iso_timestamp := "2026-01-01T00:00:00.000Z";
     iso_created_at := "2026-01-01T00:00:00.000Z" |}.

(** A session after its bootstrap: token "tok", alerts allowed, the profile
    and then the given notifications loaded. *)
Definition sample_session (l : list jsobj) : option world :=
  run [Settle 0 (Profile_settled (Fulfilled sample_profile));
       Settle 0 (Notifications_settled (Fulfilled (NDArray l)))]
      (mount (Some "tok") PermGranted).

Definition sample_world (l : list jsobj) : world :=
  default (mount (Some "tok") PermGranted) (sample_session l).

Definition sample_app (l : list jsobj) : app := app_state (sample_world l).

(** A session in which a push arrives between the profile and the list:
    the profile, the socket opening, the push of record 9, the list. *)
Definition early_push_prefix : list event :=
  [Settle 0 (Profile_settled (Fulfilled sample_profile)); WsOpen 0].
Definition early_push : event :=
  WsMessage 0 (sample_frame "notification" 9) sample_clock.
Definition late_seed : event :=
  Settle 0 (Notifications_settled
              (Fulfilled (NDArray [sample_record 7 false; sample_record 8 false]))).

(** A session whose socket is closed abnormally (code 1006) once it is live,
    up to the moment before the timer fires. *)
Definition abnormal_close_trace : list event :=
  [Settle 0 (Profile_settled (Fulfilled sample_profile));
   Settle 0 (Notifications_settled (Fulfilled (NDArray [sample_record 7 false])));
   WsOpen 0;
   WsClose 0 1006].

(** A session with two sockets closed abnormally: the first is still
    connecting at logout (the cleanup closes open sockets only), the second
    belongs to the next login. *)
Definition two_closures_trace : list event :=
  [Settle 0 (Profile_settled (Fulfilled sample_profile));
   Settle 0 (Notifications_settled (Fulfilled (NDArray [])));
   ClickLogout;
   SubmitLogin "user@example.com" "secret";
   Settle 0 (Login_settled (Fulfilled "tok2"));
   Settle 0 (Profile_settled (Fulfilled sample_profile));
   Settle 0 (Notifications_settled (Fulfilled (NDArray [])));
   WsClose 0 1006;
   WsClose 1 1006].

(** The ids of the notification list, in order. *)
Definition ids (l : list jsobj) : list jsval := map (fun n => get n "id") l.

(** ** The claims that fail, as statements over the model

    A record counts as read when the component shows it as read:
    [!(n.is_read || n.read)] is false, that is, [unread n = false]. *)

(** "A native alert is surfaced only when the push inserted the record." *)
Definition alert_only_on_insert (notification : jsobj) (s : app) : Prop :=
  alerts (env (handleNewNotification notification s)) <> alerts (env s) ->
  forall n, In n (store s) -> get n "id" <> get notification "id".

(** "The read mutation is applied optimistically": once the handler has been
    called, and before its request settles, the record is read. *)
Definition read_applied_optimistically (notificationId : jsval) (w : world) : Prop :=
  forall w1, step (ClickMarkAsRead notificationId) w = Some w1 ->
    forall n, In n (store (app_state w1)) -> get n "id" = notificationId ->
      unread n = false.

(** "Each record whose confirmation succeeded is read afterwards, even when
    the confirmation of another record failed": [os] settles the requests
    of mark-all-read, in the order of the unread records. *)
Definition partial_success_applied (w : world) (os : list (outcome unit)) : Prop :=
  forall w2,
    run [ClickMarkAllAsRead; Settle (length (inflight w)) (All_settled os)] w
      = Some w2 ->
    forall j n, List.filter unread (store (app_state w)) !! j = Some n ->
      os !! j = Some (Fulfilled tt) ->
      forall m, In m (store (app_state w2)) -> get m "id" = get n "id" ->
        unread m = false.

(** "The push connection is opened only after the bulk fetch has succeeded":
    whenever an event of the session constructs a WebSocket, an earlier event
    has settled the bulk fetch with a list. *)
Definition connects_only_after_seed (w0 : world) (evs : list event) : Prop :=
  forall pre ev post w w',
    evs = (pre ++ ev :: post)%list ->
    run pre w0 = Some w -> step ev w = Some w' ->
    length (websockets (env (app_state w)))
      < length (websockets (env (app_state w'))) ->
    exists i d l, In (Settle i (Notifications_settled (Fulfilled d))) pre /\
                  notificationsList d = inr l.

(** "No push is merged and then lost by a later seed": a record that the
    push [ev_push] put in the store is still there after [ev_seed]. *)
Definition push_survives_seed (w0 : world) (pre : list event) (ev_push ev_seed : event)
  : Prop :=
  forall w1 w2 w3,
    run pre w0 = Some w1 -> step ev_push w1 = Some w2 -> step ev_seed w2 = Some w3 ->
    forall x, In x (ids (store (app_state w2))) -> ~ In x (ids (store (app_state w1))) ->
      In x (ids (store (app_state w3))).

(** ** Handlers that keep a property of the state *)

(** [keeps P ok t]: every synchronous statement of the handler [t] keeps the
    property [P] of the state, whatever its requests settle with, as long as
    the data of a fulfilled list request satisfies [ok]. *)
Fixpoint keeps {A : Type} (P : app -> Prop) (ok : notifications_data -> Prop)
    (t : task A) : Prop :=
  match t with
  | Ret _ | Throw _ => True
  | Act f k => (forall s, P s -> P (f s)) /\ keeps P ok k
  | Get k => forall s, keeps P ok (k s)
  | Fetch_login _ _ k => forall o, keeps P ok (k o)
  | Fetch_profile k => forall o, keeps P ok (k o)
  | Fetch_notifications k =>
      forall o, (forall d, o = Fulfilled d -> ok d) -> keeps P ok (k o)
  | Fetch_read _ k => forall o, keeps P ok (k o)
  | Fetch_delete _ k => forall o, keeps P ok (k o)
  | Promise_all_read _ k => forall o, keeps P ok (k o)
  end.

(** The events whose fulfilled list responses satisfy [ok]. *)
Definition event_ok (ok : notifications_data -> Prop) (ev : event) : Prop :=
  match ev with
  | Settle _ (Notifications_settled (Fulfilled d)) => ok d
  | _ => True
  end.

(** The ids of the store are pairwise distinct. *)
Definition unique_ids (s : app) : Prop := NoDup (ids (store s)).

(** The list the component reads out of a response has pairwise distinct
    ids. *)
Definition list_unique (d : notifications_data) : Prop :=
  forall l, notificationsList d = inr l -> NoDup (ids l).

(** What every state of a session satisfies when the gateway's lists have
    unique ids: the store has, and every suspended handler keeps it so. *)
Definition session_inv (w : world) : Prop :=
  unique_ids (app_state w) /\ Forall (keeps unique_ids list_unique) (inflight w).

(** * Properties *)

(** ** Helper lemmas: reading records and lists *)

Lemma strict_eq_true (a b : jsval) : strict_eq a b = true <-> a = b.
Proof. unfold strict_eq. apply bool_decide_eq_true. Qed.

Lemma strict_eq_false (a b : jsval) : strict_eq a b = false <-> a <> b.
Proof. unfold strict_eq. apply bool_decide_eq_false. Qed.

Lemma with_read_flags (notif : jsobj) :
  get (with_read notif) "read" = JBool true /\
  get (with_read notif) "is_read" = JBool true.
Proof.
  unfold get, with_read. split.
  - rewrite lookup_insert_ne by discriminate. now rewrite lookup_insert_eq.
  - now rewrite lookup_insert_eq.
Qed.

Lemma with_read_other (notif : jsobj) (k : string) :
  k <> "read" -> k <> "is_read" -> with_read notif !! k = notif !! k.
Proof.
  intros Hr Hi. unfold with_read.
  rewrite lookup_insert_ne by congruence.
  now rewrite lookup_insert_ne by congruence.
Qed.

Lemma with_read_id (notif : jsobj) : get (with_read notif) "id" = get notif "id".
Proof. unfold get. now rewrite with_read_other by discriminate. Qed.

(** [prev.some(...)] is true exactly when some record carries the id. *)
Lemma some_same_id (notification : jsobj) (prev : list jsobj) :
  existsb (fun n => strict_eq (get n "id") (get notification "id")) prev = true
  <-> exists n, In n prev /\ get n "id" = get notification "id".
Proof.
  rewrite existsb_exists. split.
  - intros (n & Hin & Heq). exists n. split; [assumption|].
    now apply strict_eq_true.
  - intros (n & Hin & Heq). exists n. split; [assumption|].
    now apply strict_eq_true.
Qed.

Lemma no_same_id (notification : jsobj) (prev : list jsobj) :
  (forall n, In n prev -> get n "id" <> get notification "id") ->
  existsb (fun n => strict_eq (get n "id") (get notification "id")) prev = false.
Proof.
  intros Hfresh. destruct (existsb _ prev) eqn:E; [|reflexivity].
  apply some_same_id in E as (n & Hin & Heq). now apply Hfresh in Hin.
Qed.

Lemma markAsRead_update_lookup (notificationId : jsval) (prev : list jsobj) (i : nat) :
  markAsRead_update notificationId prev !! i =
  (fun notif => if strict_eq (get notif "id") notificationId
                then with_read notif else notif) <$> prev !! i.
Proof. unfold markAsRead_update. apply list_lookup_fmap. Qed.

(** ** Helper lemmas: the store under the handlers *)

Lemma store_setNotifications (l : list jsobj) (s : app) :
  store (setNotifications l s) = l.
Proof. reflexivity. Qed.

Lemma store_setNotifications_with (f : list jsobj -> list jsobj) (s : app) :
  store (setNotifications_with f s) = f (store s).
Proof. reflexivity. Qed.

Lemma store_on_env (f : browser -> browser) (s : app) : store (on_env f s) = store s.
Proof. reflexivity. Qed.

Lemma store_on_hook (f : hook -> hook) (s : app) : store (on_hook f s) = store s.
Proof. reflexivity. Qed.

Lemma store_handleNewNotification (notification : jsobj) (s : app) :
  store (handleNewNotification notification s)
  = handleNewNotification_update notification (store s).
Proof.
  unfold handleNewNotification.
  destruct (permission_state _); reflexivity.
Qed.

Lemma comp_cleanup (s : app) : comp (useWebSocket_cleanup s) = comp s.
Proof.
  unfold useWebSocket_cleanup.
  destruct (effect_ws _); [|reflexivity].
  destruct (readyState_of _ _) as [[]|]; reflexivity.
Qed.

Lemma comp_effect (userId : jsval) (s : app) :
  comp (fst (useWebSocket_effect userId s)) = comp s.
Proof.
  unfold useWebSocket_effect.
  destruct (negb _); [reflexivity|].
  destruct (getAuthToken s); [|reflexivity].
  destruct (no_token _); reflexivity.
Qed.

(** React's commit never touches the cells of the component, the
    notification list among them. *)
Lemma comp_commit (s : app) : comp (commit s) = comp s.
Proof.
  unfold commit. case_bool_decide; [reflexivity|].
  pose proof (comp_effect (userId_of s) (useWebSocket_cleanup s)) as He.
  destruct (useWebSocket_effect _ _) as [s' ws]. simpl in He.
  simpl. rewrite He. apply comp_cleanup.
Qed.

Lemma store_commit (s : app) : store (commit s) = store s.
Proof. unfold store. now rewrite comp_commit. Qed.

(** ** The store operations *)

(** The updater keeps ids pairwise distinct. *)
Lemma handleNewNotification_update_NoDup (notification : jsobj) (prev : list jsobj) :
  NoDup (ids prev) -> NoDup (ids (handleNewNotification_update notification prev)).
Proof.
  intros Hnd. unfold handleNewNotification_update.
  destruct (existsb _ prev) eqn:E; [assumption|].
  unfold ids. simpl. apply NoDup_cons. split; [|assumption].
  intros Hin. apply list_elem_of_In, in_map_iff in Hin as (n & Heq & Hin).
  assert (Hex : existsb (fun n => strict_eq (get n "id") (get notification "id")) prev = true)
    by (apply some_same_id; eauto).
  congruence.
Qed.

(** C5: a push whose id is already in the store leaves the store as it is:
    same records in the same order, same size; ids stay unique, and a record
    that is read stays where it is, still read. *)
Theorem mergePush_existing_id_noop (notification : jsobj) (s : app) :
  (exists n, In n (store s) /\ get n "id" = get notification "id") ->
  store (handleNewNotification notification s) = store s /\
  length (store (handleNewNotification notification s)) = length (store s) /\
  (NoDup (ids (store s)) ->
   NoDup (ids (store (handleNewNotification notification s)))) /\
  (forall i n, store s !! i = Some n -> truthy (get n "read") = true ->
     store (handleNewNotification notification s) !! i = Some n).
Proof.
  intros Hpresent.
  assert (Heq : store (handleNewNotification notification s) = store s).
  { rewrite store_handleNewNotification. unfold handleNewNotification_update.
    apply some_same_id in Hpresent. now rewrite Hpresent. }
  rewrite Heq. repeat split; auto.
Qed.

Lemma mergePush_existing_id_noop_witness :
  let s := sample_app [sample_record 7 true; sample_record 8 false] in
  let pushed := sample_record 7 false in
  (exists n, In n (store s) /\ get n "id" = get pushed "id") /\
  store (handleNewNotification pushed s) = store s.
Proof.
  intros s pushed.
  assert (H : exists n, In n (store s) /\ get n "id" = get pushed "id").
  { exists (sample_record 7 true). split; [left; reflexivity | reflexivity]. }
  split; [exact H|].
  exact (proj1 (mergePush_existing_id_noop pushed s H)).
Defined.

(** C10: applying the read mutation locally keeps the length and the order of
    the list; a record with the given id gets both read flags set and keeps
    every other property; every other record is the same object as before. *)
Theorem markAsRead_local_frame (notificationId : jsval) (s : app) :
  let s' := setNotifications_with (markAsRead_update notificationId) s in
  length (store s') = length (store s) /\
  (forall i, i >= length (store s) -> store s' !! i = None) /\
  forall i notif, store s !! i = Some notif ->
    exists notif', store s' !! i = Some notif' /\
      (get notif "id" = notificationId ->
         get notif' "read" = JBool true /\ get notif' "is_read" = JBool true /\
         forall k, k <> "read" -> k <> "is_read" -> notif' !! k = notif !! k) /\
      (get notif "id" <> notificationId -> notif' = notif).
Proof.
  intros s'. subst s'. rewrite store_setNotifications_with.
  split; [apply length_map|]. split.
  - intros i Hi. apply lookup_ge_None_2.
    unfold markAsRead_update. rewrite length_map. lia.
  - intros i notif Hi. rewrite markAsRead_update_lookup, Hi. simpl.
    eexists. split; [reflexivity|]. split.
    + intros Hid. apply strict_eq_true in Hid. rewrite Hid.
      destruct (with_read_flags notif) as [Hr Hi'].
      repeat split; auto. intros k. apply with_read_other.
    + intros Hid. apply strict_eq_false in Hid. now rewrite Hid.
Qed.

Lemma markAsRead_local_frame_witness :
  let s := sample_app [sample_record 7 false; sample_record 8 false] in
  ids (store (setNotifications_with (markAsRead_update (JNum 7)) s)) = [JNum 7; JNum 8] /\
  length (store (setNotifications_with (markAsRead_update (JNum 7)) s)) = length (store s).
Proof.
  intros s. split; [reflexivity|].
  exact (proj1 (markAsRead_local_frame (JNum 7) s)).
Defined.

(** ** Native alerts *)

(** C9, as the code has it: a push raises a native alert exactly when the
    Notification permission is granted, whether or not its id was already in
    the store. *)
Theorem alert_follows_permission (notification : jsobj) (s : app) :
  alerts (env (handleNewNotification notification s)) =
  match permission_state (env s) with
  | PermGranted =>
      (alerts (env s) ++ [(get notification "title", get notification "message")])%list
  | PermDefault | PermDenied => alerts (env s)
  end.
Proof.
  unfold handleNewNotification. simpl.
  destruct (permission_state (env s)); reflexivity.
Qed.

(** C9 as stated fails: a push that duplicates the id 7 of a listed record
    still raises an alert. *)
Lemma alert_on_duplicate_push :
  ~ alert_only_on_insert (sample_record 7 false) (sample_app [sample_record 7 true]).
Proof.
  unfold alert_only_on_insert. intros Hclaim.
  apply (Hclaim ltac:(discriminate) (sample_record 7 true)).
  - left; reflexivity.
  - reflexivity.
Qed.

(** ** Push frames *)

(** C8: a frame that does not parse, and a parsed frame whose [type] is
    neither "notification" nor "unread_count" (reading it may even throw),
    end the handler normally with the component state, the alerts, the
    sockets and the timers as they were: only the console grew, and
    [onMessage] was not called. *)
Theorem malformed_frame_discarded
    (onMessage : jsobj -> app -> app) (event_data : frame) (clk : clock) (s : app) :
  (event_data = Unparseable \/
   exists data h, event_data = Parsed data h /\
     prop h data "type" <> inr (JStr "notification") /\
     prop h data "type" <> inr (JStr "unread_count")) ->
  exists s', ws_onmessage onMessage event_data clk s = Normal s' /\
    store s' = store s /\ comp s' = comp s /\ ws_hook s' = ws_hook s /\
    alerts (env s') = alerts (env s) /\
    websockets (env s') = websockets (env s) /\
    timers (env s') = timers (env s).
Proof.
  intros [-> | (data & h & -> & Hn & Hu)].
  - eexists. split; [reflexivity|]. repeat split.
  - unfold ws_onmessage, ws_onmessage_try.
    destruct (prop h data "type") as [e | ty] eqn:Ety.
    + eexists. split; [reflexivity|]. repeat split.
    + assert (strict_eq ty (JStr "notification") = false) as ->
        by (apply strict_eq_false; congruence).
      assert (strict_eq ty (JStr "unread_count") = false) as ->
        by (apply strict_eq_false; congruence).
      eexists. split; [reflexivity|]. repeat split.
Qed.

Lemma malformed_frame_discarded_witness :
  let s := sample_app [sample_record 7 false] in
  exists s', ws_onmessage handleNewNotification (sample_frame "ping" 9) sample_clock s
             = Normal s' /\ store s' = store s.
Proof.
  intros s.
  destruct (malformed_frame_discarded handleNewNotification
              (sample_frame "ping" 9) sample_clock s) as (s' & Hrun & Hstore & _).
  - right. eexists _, _. split; [reflexivity|]. split; discriminate.
  - exists s'. split; assumption.
Defined.

(** ** Helper lemmas: the first turns of a session *)

(** Settling the request of the suspended handler named by [Hi]: one turn of
    the event loop, down to the rest of that handler. *)
Ltac settle_at Hi := unfold step, handle, settle; rewrite Hi.

Lemma run_cons (ev : event) (evs : list event) (w : world) :
  run (ev :: evs) w = step ev w ≫= run evs.
Proof. reflexivity. Qed.

(** With a token stored, the first render leaves loadUserProfile suspended at
    [api.getProfile()]. When the profile arrives the handler stores it and
    suspends again, at [api.getNotifications()]; once that request is
    fulfilled with a list (or with something read as one), the list replaces
    the store. *)
Lemma bootstrap_after_profile (tok : string) (perm : permission) (profileData : jsobj) :
  tok <> "" ->
  exists t,
    (exists k, t = Fetch_notifications k) /\
    handle (Settle 0 (Profile_settled (Fulfilled profileData))) (mount (Some tok) perm)
      = Some {| app_state :=
                  setUser (Some profileData)
                    (request_permission_effect
                       (setLoading true (initial_app (Some tok) perm)));
                inflight := [t] |} /\
    forall (w : world) (i : nat) (d : notifications_data) (l : list jsobj),
      inflight w !! i = Some t -> notificationsList d = inr l ->
      exists w', step (Settle i (Notifications_settled (Fulfilled d))) w = Some w' /\
                 store (app_state w') = l /\
                 inflight w' = delete i (inflight w).
Proof.
  intros Htok. apply String.eqb_neq in Htok.
  eexists. split; [eexists; reflexivity|]. split.
  - unfold mount, spawn, initializeApp. cbn. rewrite Htok.
    destruct perm; reflexivity.
  - intros w i d l Hi Hd. settle_at Hi. cbn.
    rewrite Hd. cbn. eexists. split; [reflexivity|].
    split; [|apply app_nil_r]. cbn. now rewrite store_commit.
Qed.

(** ** Mutations confirmed by the gateway *)

(** The sample session does reach its sample world. *)
Lemma sample_world_reached (l : list jsobj) :
  sample_session l = Some (sample_world l).
Proof.
  unfold sample_world. destruct (sample_session l) as [w|] eqn:E; [reflexivity|].
  exfalso. unfold sample_session in E.
  destruct (bootstrap_after_profile "tok" PermGranted sample_profile ltac:(discriminate))
    as (t & _ & Hstep & Hseed).
  rewrite !run_cons in E. unfold step at 1 in E. rewrite Hstep in E. simpl in E.
  match type of E with
  | context [step _ ?w1] =>
      destruct (Hseed w1 0%nat (NDArray l) l eq_refl eq_refl) as (w & Hw & _)
  end.
  rewrite Hw in E. discriminate E.
Qed.

Lemma deleteNotification_update_In (notificationId : jsval) (prev : list jsobj) (n : jsobj) :
  In n (deleteNotification_update notificationId prev)
  <-> In n prev /\ get n "id" <> notificationId.
Proof.
  unfold deleteNotification_update. rewrite filter_In, negb_true_iff.
  now rewrite strict_eq_false.
Qed.

(** C7: calling deleteNotification changes nothing and leaves the handler
    suspended at the remote call; when the call is rejected the component
    state is what it was, list included; only when it is fulfilled are the
    records with that id filtered out. *)
Theorem delete_only_after_confirmation (notificationId : jsval) (w : world) :
  spawn (deleteNotification notificationId) w
    = {| app_state := app_state w;
         inflight := inflight w ++ [deleteNotification notificationId] |} /\
  (forall w', step (ClickDelete notificationId) w = Some w' ->
     store (app_state w') = store (app_state w)) /\
  forall (w1 : world) (i : nat),
    inflight w1 !! i = Some (deleteNotification notificationId) ->
    (forall e, exists w2,
       step (Settle i (Delete_settled (Rejected e))) w1 = Some w2 /\
       comp (app_state w2) = comp (app_state w1) /\
       store (app_state w2) = store (app_state w1)) /\
    (exists w2,
       step (Settle i (Delete_settled (Fulfilled tt))) w1 = Some w2 /\
       store (app_state w2)
         = deleteNotification_update notificationId (store (app_state w1)) /\
       forall n, In n (store (app_state w2))
                 <-> In n (store (app_state w1)) /\ get n "id" <> notificationId).
Proof.
  split; [reflexivity|]. split.
  - intros w'. unfold step, handle.
    destruct (shows_centre _); [|discriminate].
    intros [= <-]. simpl. apply store_commit.
  - intros w1 i Hi. split.
    + intros e. settle_at Hi. simpl.
      eexists. split; [reflexivity|]. simpl.
      rewrite comp_commit, store_commit. split; reflexivity.
    + settle_at Hi. simpl.
      eexists. split; [reflexivity|]. simpl.
      rewrite store_commit. split; [reflexivity|].
      intros n. apply deleteNotification_update_In.
Qed.

Lemma delete_only_after_confirmation_witness :
  let w1 := {| app_state := sample_app [sample_record 7 false; sample_record 8 false];
               inflight := [deleteNotification (JNum 7)] |} in
  inflight w1 !! 0%nat = Some (deleteNotification (JNum 7)) /\
  exists w2,
    step (Settle 0 (Delete_settled (Rejected (Error "Failed to delete notification")))) w1
      = Some w2 /\
    store (app_state w2) = store (app_state w1).
Proof.
  intros w1.
  assert (H : inflight w1 !! 0%nat = Some (deleteNotification (JNum 7))) by reflexivity.
  split; [exact H|].
  destruct (proj2 (proj2 (delete_only_after_confirmation (JNum 7) w1)) w1 0%nat H)
    as [Hrej _].
  destruct (Hrej (Error "Failed to delete notification")) as (w2 & Hstep & _ & Hstore).
  exists w2. split; assumption.
Defined.

Lemma markAsRead_update_keeps_others (notificationId : jsval) (prev : list jsobj)
    (i : nat) (notif : jsobj) :
  prev !! i = Some notif ->
  exists notif', markAsRead_update notificationId prev !! i = Some notif' /\
    forall k, k <> "read" -> k <> "is_read" -> notif' !! k = notif !! k.
Proof.
  intros Hi. rewrite markAsRead_update_lookup, Hi. simpl.
  eexists. split; [reflexivity|]. intros k Hr Hi'.
  destruct (strict_eq _ _); [now apply with_read_other | reflexivity].
Qed.

(** C2, as the code has it: calling markAsRead changes nothing and leaves the
    handler suspended at the remote call; the read flags are set only when
    that call is fulfilled, and a rejected call leaves the component state as
    it was. Whatever the outcome, no property of a record other than [read]
    and [is_read] is written: there is no pending-mutation marker. *)
Theorem read_applied_after_confirmation (notificationId : jsval) (w : world) :
  exists t,
    spawn (markAsRead notificationId) w
      = {| app_state := app_state w; inflight := inflight w ++ [t] |} /\
    (forall w', step (ClickMarkAsRead notificationId) w = Some w' ->
       store (app_state w') = store (app_state w)) /\
    forall (w1 : world) (i : nat) (o : outcome unit),
      inflight w1 !! i = Some t ->
      exists w2,
        step (Settle i (Read_settled o)) w1 = Some w2 /\
        store (app_state w2)
          = match o with
            | Fulfilled _ => markAsRead_update notificationId (store (app_state w1))
            | Rejected _ => store (app_state w1)
            end /\
        forall j notif, store (app_state w1) !! j = Some notif ->
          exists notif', store (app_state w2) !! j = Some notif' /\
            forall k, k <> "read" -> k <> "is_read" -> notif' !! k = notif !! k.
Proof.
  eexists. split; [reflexivity|]. split.
  - intros w'. unfold step, handle.
    destruct (shows_centre _); [|discriminate].
    intros [= <-]. simpl. apply store_commit.
  - intros w1 i o Hi. settle_at Hi. simpl.
    destruct o as [[]|e]; simpl.
    + eexists. split; [reflexivity|]. simpl. rewrite store_commit.
      assert (Hs : forall sock s,
                 store (sendMessage sock notificationId s) = store s).
      { intros [h|] s; simpl; [|reflexivity].
        destruct (websockets (env s) !! h) as [ws|]; [|reflexivity].
        case_bool_decide; reflexivity. }
      rewrite Hs, store_setNotifications_with. split; [reflexivity|].
      intros j notif. apply markAsRead_update_keeps_others.
    + eexists. split; [reflexivity|]. simpl. rewrite store_commit.
      split; [reflexivity|]. intros j notif Hj. exists notif.
      split; [exact Hj | reflexivity].
Qed.

Lemma read_applied_after_confirmation_witness :
  let w := sample_world [sample_record 7 false] in
  exists w', step (ClickMarkAsRead (JNum 7)) w = Some w' /\
             store (app_state w') = store (app_state w).
Proof.
  intros w.
  destruct (read_applied_after_confirmation (JNum 7) w) as (t & _ & Hclick & _).
  pose (w' := default w (step (ClickMarkAsRead (JNum 7)) w)).
  assert (E : step (ClickMarkAsRead (JNum 7)) w = Some w')
    by (vm_compute; reflexivity).
  exists w'. split; [exact E | exact (Hclick w' E)].
Defined.

(** C2 as stated fails: after the click on record 7 and before the request
    settles, record 7 is still unread. *)
Lemma read_not_optimistic :
  ~ read_applied_optimistically (JNum 7) (sample_world [sample_record 7 false]).
Proof.
  unfold read_applied_optimistically. intros Hclaim.
  pose (w := sample_world [sample_record 7 false]).
  pose (w1 := default w (step (ClickMarkAsRead (JNum 7)) w)).
  assert (Hstep : step (ClickMarkAsRead (JNum 7)) w = Some w1)
    by (vm_compute; reflexivity).
  assert (Hpending : length (inflight w1) = 1%nat) by (vm_compute; reflexivity).
  assert (Hstore : store (app_state w1) = [sample_record 7 false])
    by (vm_compute; reflexivity).
  assert (Hin : In (sample_record 7 false) (store (app_state w1)))
    by (rewrite Hstore; left; reflexivity).
  specialize (Hclaim w1 Hstep (sample_record 7 false) Hin eq_refl).
  vm_compute in Hclaim. discriminate Hclaim.
Qed.

Lemma promise_all_fulfilled (os : list (outcome unit)) :
  (forall o, In o os -> o = Fulfilled tt) -> promise_all os = Fulfilled tt.
Proof.
  induction os as [|o os IH]; intros Hall; [reflexivity|].
  rewrite (Hall o) by (left; reflexivity). simpl.
  apply IH. intros o' Hin. apply Hall. now right.
Qed.

Lemma promise_all_rejected (os : list (outcome unit)) :
  (exists e, In (Rejected e) os) -> exists e, promise_all os = Rejected e.
Proof.
  induction os as [|o os IH]; intros (e & Hin); [destruct Hin|].
  destruct o as [[]|e']; simpl.
  - apply IH. destruct Hin as [Heq|Hin]; [discriminate|]. eauto.
  - eauto.
Qed.

Lemma markAllAsRead_update_read (prev : list jsobj) (n : jsobj) :
  In n (markAllAsRead_update prev) ->
  get n "read" = JBool true /\ get n "is_read" = JBool true.
Proof.
  unfold markAllAsRead_update. rewrite in_map_iff.
  intros (m & <- & _). apply with_read_flags.
Qed.

(** C1, as the code has it: markAllAsRead issues one confirmation per unread
    record, all at once, and changes nothing while they are pending. When
    every confirmation succeeds, every record of the list is marked read;
    when one fails, the list is left as it was, also for the records whose
    own confirmation succeeded. *)
Theorem markAll_all_or_nothing (w : world) :
  exists k,
    let t := Promise_all_read (ids (List.filter unread (store (app_state w)))) k in
    spawn markAllAsRead w
      = {| app_state := app_state w; inflight := inflight w ++ [t] |} /\
    forall (w1 : world) (i : nat) (os : list (outcome unit)),
      inflight w1 !! i = Some t ->
      length os = length (List.filter unread (store (app_state w))) ->
      exists w2,
        step (Settle i (All_settled os)) w1 = Some w2 /\
        ((forall o, In o os -> o = Fulfilled tt) ->
           store (app_state w2) = markAllAsRead_update (store (app_state w1)) /\
           forall n, In n (store (app_state w2)) ->
             get n "read" = JBool true /\ get n "is_read" = JBool true) /\
        ((exists e, In (Rejected e) os) ->
           store (app_state w2) = store (app_state w1)).
Proof.
  exists (fun o =>
    try_catch
      (await o;; act (setNotifications_with markAllAsRead_update))
      (fun _ => act (console_error "Failed to mark all notifications as read:"))).
  intros t. split; [reflexivity|].
  intros w1 i os Hi Hlen. settle_at Hi.
  subst t. simpl. unfold ids. rewrite length_map.
  apply Nat.eqb_eq in Hlen. rewrite Hlen. simpl.
  destruct (promise_all os) as [[]|e] eqn:Eall; simpl.
  - eexists. split; [reflexivity|]. simpl. rewrite store_commit.
    rewrite store_setNotifications_with. split.
    + intros _. split; [reflexivity|]. apply markAllAsRead_update_read.
    + intros Hrej. apply promise_all_rejected in Hrej as (e & He). congruence.
  - eexists. split; [reflexivity|]. simpl. rewrite store_commit. simpl. split.
    + intros Hall. apply promise_all_fulfilled in Hall. congruence.
    + intros _. reflexivity.
Qed.

Lemma markAll_all_or_nothing_witness :
  let w := sample_world [sample_record 7 false; sample_record 8 false] in
  exists w1 w2,
    step ClickMarkAllAsRead w = Some w1 /\
    step (Settle 0 (All_settled [Fulfilled tt; Fulfilled tt])) w1 = Some w2 /\
    store (app_state w2) = markAllAsRead_update (store (app_state w1)).
Proof.
  intros w.
  destruct (markAll_all_or_nothing w) as (k & Hspawn & Hsettle).
  exists (sync commit (spawn markAllAsRead w)).
  destruct (Hsettle (sync commit (spawn markAllAsRead w)) 0%nat
              [Fulfilled tt; Fulfilled tt]) as (w2 & Hstep & Hok & _).
  - rewrite Hspawn. reflexivity.
  - reflexivity.
  - exists w2. split; [reflexivity|]. split; [exact Hstep|].
    apply Hok. intros o [<-|[<-|[]]]; reflexivity.
Defined.

(** C1 as stated fails: with records 7 and 8 unread, the confirmation of 7
    succeeding and that of 8 failing, record 7 is still unread afterwards. *)
Lemma partial_success_dropped :
  ~ partial_success_applied
      (sample_world [sample_record 7 false; sample_record 8 false])
      [Fulfilled tt; Rejected (Error "Failed to mark notification as read")].
Proof.
  unfold partial_success_applied. intros Hclaim.
  pose (w := sample_world [sample_record 7 false; sample_record 8 false]).
  pose (os := [Fulfilled tt;
               Rejected (Error "Failed to mark notification as read")]).
  pose (w2 := default w (run [ClickMarkAllAsRead;
                              Settle (length (inflight w)) (All_settled os)] w)).
  assert (Hrun : run [ClickMarkAllAsRead;
                      Settle (length (inflight w)) (All_settled os)] w = Some w2)
    by (vm_compute; reflexivity).
  assert (Hj : List.filter unread (store (app_state w)) !! 0%nat
               = Some (sample_record 7 false)) by (vm_compute; reflexivity).
  assert (Hstore : store (app_state w2)
                   = [sample_record 7 false; sample_record 8 false])
    by (vm_compute; reflexivity).
  assert (Hin : In (sample_record 7 false) (store (app_state w2)))
    by (rewrite Hstore; left; reflexivity).
  specialize (Hclaim w2 Hrun 0%nat (sample_record 7 false) Hj eq_refl
                (sample_record 7 false) Hin eq_refl).
  vm_compute in Hclaim. discriminate Hclaim.
Qed.

(** ** The bootstrap chain *)

(** C3, as the code has it: in a session with a stored token, the push
    connection is constructed in the very turn in which the profile arrives
    (its id being truthy), while the bulk fetch is still pending and the
    store is empty; the bulk fetch, once fulfilled, replaces the store by
    the fetched list whatever the store held. *)
Theorem connection_opens_with_profile
    (tok : string) (perm : permission) (profileData : jsobj) :
  tok <> "" -> truthy (get profileData "id") = true ->
  exists w1 t,
    step (Settle 0 (Profile_settled (Fulfilled profileData))) (mount (Some tok) perm)
      = Some w1 /\
    websockets (env (app_state w1))
      = [{| ws_url := WS_BASE_URL ++ "/ws/notifications/?token=" ++ tok;
            readyState := CONNECTING |}] /\
    store (app_state w1) = [] /\
    inflight w1 = [t] /\ (exists k, t = Fetch_notifications k) /\
    forall (w : world) (i : nat) (d : notifications_data) (l : list jsobj),
      inflight w !! i = Some t -> notificationsList d = inr l ->
      exists w', step (Settle i (Notifications_settled (Fulfilled d))) w = Some w' /\
                 store (app_state w') = l.
Proof.
  intros Htok Hid.
  destruct (bootstrap_after_profile tok perm profileData Htok)
    as (t & Hk & Hstep & Hseed).
  eexists. exists t. unfold step. rewrite Hstep. simpl.
  split; [reflexivity|]. apply String.eqb_neq in Htok.
  unfold sync. simpl app_state. simpl inflight.
  repeat split.
  - assert (Hu : get profileData "id" <> JUndefined)
      by (intros Hu; rewrite Hu in Hid; discriminate Hid).
    unfold commit, useWebSocket_cleanup, useWebSocket_effect.
    destruct perm; cbn; (case_bool_decide; [contradiction|]);
      rewrite Hid; cbn; rewrite Htok; reflexivity.
  - rewrite store_commit. destruct perm; reflexivity.
  - exact Hk.
  - intros w i d l Hi Hd.
    destruct (Hseed w i d l Hi Hd) as (w' & Hw' & Hs & _). eauto.
Qed.

Lemma connection_opens_with_profile_witness :
  "tok" <> "" /\ truthy (get sample_profile "id") = true /\
  exists w1,
    step (Settle 0 (Profile_settled (Fulfilled sample_profile)))
      (mount (Some "tok") PermGranted) = Some w1 /\
    websockets (env (app_state w1))
      = [{| ws_url := "ws://localhost:8000/ws/notifications/?token=tok";
            readyState := CONNECTING |}] /\
    store (app_state w1) = [].
Proof.
  assert (Htok : "tok" <> "") by discriminate.
  assert (Hid : truthy (get sample_profile "id") = true) by reflexivity.
  split; [exact Htok|]. split; [exact Hid|].
  destruct (connection_opens_with_profile "tok" PermGranted sample_profile Htok Hid)
    as (w1 & t & Hstep & Hws & Hstore & _).
  exists w1. repeat split; assumption.
Defined.

(** C6: after the bootstrap has seeded the store with the list the gateway
    returned, the store is that list in that order, and a push whose id is
    not in it goes in front. *)
Theorem seed_then_mergePush_order
    (tok : string) (perm : permission) (profileData : jsobj)
    (d : notifications_data) (bulk : list jsobj) (r4 : jsobj) :
  tok <> "" -> notificationsList d = inr bulk ->
  (forall n, In n bulk -> get n "id" <> get r4 "id") ->
  exists w,
    run [Settle 0 (Profile_settled (Fulfilled profileData));
         Settle 0 (Notifications_settled (Fulfilled d))]
        (mount (Some tok) perm) = Some w /\
    store (app_state w) = bulk /\
    store (handleNewNotification r4 (app_state w)) = r4 :: bulk.
Proof.
  intros Htok Hd Hfresh.
  destruct (bootstrap_after_profile tok perm profileData Htok)
    as (t & _ & Hstep & Hseed).
  pose (w1 := sync commit
                {| app_state :=
                     setUser (Some profileData)
                       (request_permission_effect
                          (setLoading true (initial_app (Some tok) perm)));
                   inflight := [t] |}).
  assert (H1 : step (Settle 0 (Profile_settled (Fulfilled profileData)))
                 (mount (Some tok) perm) = Some w1)
    by (unfold step; rewrite Hstep; reflexivity).
  destruct (Hseed w1 0%nat d bulk eq_refl Hd) as (w & Hw & Hs & _).
  exists w. split; [now rewrite !run_cons, H1; simpl; rewrite Hw|].
  split; [exact Hs|].
  rewrite store_handleNewNotification, Hs.
  unfold handleNewNotification_update. now rewrite no_same_id.
Qed.

Lemma seed_then_mergePush_order_witness :
  let r1 := sample_record 1 false in
  let r2 := sample_record 2 true in
  let r3 := sample_record 3 false in
  let r4 := sample_record 4 false in
  "tok" <> "" /\
  notificationsList (NDObject (Some [r1; r2; r3])) = inr [r1; r2; r3] /\
  (forall n, In n [r1; r2; r3] -> get n "id" <> get r4 "id") /\
  exists w,
    run [Settle 0 (Profile_settled (Fulfilled sample_profile));
         Settle 0 (Notifications_settled (Fulfilled (NDObject (Some [r1; r2; r3]))))]
        (mount (Some "tok") PermGranted) = Some w /\
    store (app_state w) = [r1; r2; r3] /\
    store (handleNewNotification r4 (app_state w)) = [r4; r1; r2; r3].
Proof.
  intros r1 r2 r3 r4.
  assert (Htok : "tok" <> "") by discriminate.
  assert (Hfresh : forall n, In n [r1; r2; r3] -> get n "id" <> get r4 "id").
  { intros n [<-|[<-|[<-|[]]]]; discriminate. }
  split; [exact Htok|]. split; [reflexivity|]. split; [exact Hfresh|].
  exact (seed_then_mergePush_order "tok" PermGranted sample_profile
           (NDObject (Some [r1; r2; r3])) [r1; r2; r3] r4 Htok eq_refl Hfresh).
Defined.

(** C3 as stated fails, on both counts: in the session below the socket is
    constructed by the first event, before any list has arrived; and record 9,
    pushed while the list is pending, is gone once the list (records 7 and
    8) has replaced the store. *)
Lemma connection_precedes_seed :
  ~ connects_only_after_seed (mount (Some "tok") PermGranted)
      (early_push_prefix ++ [early_push; late_seed]) /\
  ~ push_survives_seed (mount (Some "tok") PermGranted)
      early_push_prefix early_push late_seed.
Proof.
  pose (w0 := mount (Some "tok") PermGranted).
  pose (wp := default w0 (step (Settle 0 (Profile_settled (Fulfilled sample_profile))) w0)).
  pose (w1 := default w0 (run early_push_prefix w0)).
  pose (w2 := default w1 (step early_push w1)).
  pose (w3 := default w2 (step late_seed w2)).
  assert (Hp : step (Settle 0 (Profile_settled (Fulfilled sample_profile))) w0 = Some wp)
    by (vm_compute; reflexivity).
  assert (H1 : run early_push_prefix w0 = Some w1) by (vm_compute; reflexivity).
  assert (H2 : step early_push w1 = Some w2) by (vm_compute; reflexivity).
  assert (H3 : step late_seed w2 = Some w3) by (vm_compute; reflexivity).
  assert (I1 : ids (store (app_state w1)) = []) by (vm_compute; reflexivity).
  assert (I2 : ids (store (app_state w2)) = [JNum 9]) by (vm_compute; reflexivity).
  assert (I3 : ids (store (app_state w3)) = [JNum 7; JNum 8]) by (vm_compute; reflexivity).
  split.
  - intros Hclaim.
    destruct (Hclaim [] (Settle 0 (Profile_settled (Fulfilled sample_profile)))
                [WsOpen 0; early_push; late_seed] w0 wp eq_refl eq_refl Hp)
      as (i & d & l & Hin & _).
    + vm_compute. lia.
    + destruct Hin.
  - intros Hclaim.
    specialize (Hclaim w1 w2 w3 H1 H2 H3 (JNum 9)).
    rewrite I1, I2, I3 in Hclaim.
    destruct Hclaim as [H|[H|[]]]; try discriminate H.
    + left; reflexivity.
    + intros [].
Qed.

(** ** Reconnection *)

Lemma commit_stable (s : app) :
  userId_of s = effect_userId (ws_hook s) -> commit s = s.
Proof. intros H. unfold commit. now rewrite bool_decide_eq_true_2. Qed.

(** The callback of the reconnect timer constructs no socket and calls no
    handler: in a state whose effect is up to date, a timer that fires
    changes the timer list and the console only. *)
Lemma reconnect_timer_only_logs (w w' : world) (i : nat) :
  userId_of (app_state w) = effect_userId (ws_hook (app_state w)) ->
  step (TimerFire i) w = Some w' ->
  websockets (env (app_state w')) = websockets (env (app_state w)) /\
  comp (app_state w') = comp (app_state w) /\
  ws_hook (app_state w') = ws_hook (app_state w) /\
  inflight w' = inflight w.
Proof.
  intros Hdep. unfold step, handle.
  destruct (timers (env (app_state w)) !! i); [|discriminate].
  intros [= <-]. simpl. rewrite commit_stable by exact Hdep.
  repeat split.
Qed.

(** C4, the code at an abnormal closure: after the close event with code
    1006 one timer of 5000 ms is pending; when it fires it logs "Attempting
    to reconnect..." and nothing else happens: the only socket ever
    constructed is the closed one, and the component stays disconnected. *)
Theorem abnormal_close_never_reconnects :
  exists w4 w5,
    run abnormal_close_trace (mount (Some "tok") PermGranted) = Some w4 /\
    timers (env (app_state w4)) = [5000%Z] /\
    step (TimerFire 0) w4 = Some w5 /\
    timers (env (app_state w5)) = [] /\
    map readyState (websockets (env (app_state w5))) = [CLOSED] /\
    isConnected (ws_hook (app_state w5)) = false /\
    last (console (env (app_state w5))) = Some "Attempting to reconnect..." /\
    inflight w5 = [].
Proof.
  pose (w0 := mount (Some "tok") PermGranted).
  pose (w4 := default w0 (run abnormal_close_trace w0)).
  pose (w5 := default w4 (step (TimerFire 0) w4)).
  exists w4, w5.
  split; [vm_compute; reflexivity|].
  split; [vm_compute; reflexivity|].
  split; [vm_compute; reflexivity|].
  split; [vm_compute; reflexivity|].
  split; [vm_compute; reflexivity|].
  split; [vm_compute; reflexivity|].
  split; vm_compute; reflexivity.
Qed.

(** Nothing guards the arming either: two abnormal closures leave two
    pending timers. *)
Lemma two_closures_two_timers :
  exists w,
    run two_closures_trace (mount (Some "tok") PermGranted) = Some w /\
    timers (env (app_state w)) = [5000%Z; 5000%Z] /\
    map readyState (websockets (env (app_state w))) = [CLOSED; CLOSED].
Proof.
  pose (w0 := mount (Some "tok") PermGranted).
  exists (default w0 (run two_closures_trace w0)).
  split; [vm_compute; reflexivity|].
  split; vm_compute; reflexivity.
Qed.

(** * Further properties of the component *)

(** ** The updater functions as list operations *)

Section Updaters.

Implicit Types (prev : list jsobj) (n notif notification : jsobj) (i : jsval).

Lemma unread_with_read notif : unread (with_read notif) = false.
Proof.
  unfold unread. destruct (with_read_flags notif) as [-> _]. reflexivity.
Qed.

Lemma with_read_idem notif : with_read (with_read notif) = with_read notif.
Proof.
  apply map_eq. intros k.
  destruct (decide (k = "is_read")) as [->|Hi].
  - unfold with_read. now rewrite !lookup_insert_eq.
  - destruct (decide (k = "read")) as [->|Hr].
    + unfold with_read at 1 3.
      rewrite !(lookup_insert_ne _ "is_read") by discriminate.
      now rewrite !lookup_insert_eq.
    + now apply with_read_other.
Qed.

(** X1: dedup: of two pushes that carry the same id, the second changes
    nothing, whatever else the two records hold. *)
Theorem push_same_id_once prev n1 n2 :
  get n1 "id" = get n2 "id" ->
  handleNewNotification_update n2 (handleNewNotification_update n1 prev)
  = handleNewNotification_update n1 prev.
Proof.
  intros Hid. unfold handleNewNotification_update at 1.
  rewrite (proj2 (some_same_id n2 _)); [reflexivity|].
  unfold handleNewNotification_update.
  destruct (existsb _ prev) eqn:E.
  - apply some_same_id in E as (m & Hin & Hm). exists m. split; [exact Hin|congruence].
  - exists n1. split; [left; reflexivity | exact Hid].
Qed.

Lemma push_same_id_once_witness :
  get (sample_record 7 false) "id" = get (sample_record 7 true) "id" /\
  handleNewNotification_update (sample_record 7 true)
    (handleNewNotification_update (sample_record 7 false) [sample_record 8 false])
  = [sample_record 7 false; sample_record 8 false].
Proof.
  split; [reflexivity|].
  rewrite (push_same_id_once [sample_record 8 false]
             (sample_record 7 false) (sample_record 7 true) eq_refl).
  reflexivity.
Defined.

(** X2: after a push the list holds a record with the pushed id, every record it
    held before is still there in the same order behind at most one new head,
    and the length grew by one exactly when the id was new. *)
Theorem push_outcome prev notification :
  (exists m, In m (handleNewNotification_update notification prev) /\
             get m "id" = get notification "id") /\
  (exists front, handleNewNotification_update notification prev = (front ++ prev)%list /\
                 (front = [] \/ front = [notification])) /\
  length (handleNewNotification_update notification prev)
  = if existsb (fun m => strict_eq (get m "id") (get notification "id")) prev
    then length prev else S (length prev).
Proof.
  unfold handleNewNotification_update.
  destruct (existsb _ prev) eqn:E.
  - apply some_same_id in E. split; [exact E|]. split; [|reflexivity].
    exists []. split; [reflexivity | now left].
  - split; [exists notification; split; [left|]; reflexivity|].
    split; [|reflexivity].
    exists [notification]. split; [reflexivity | now right].
Qed.

(** X3: deleting: no record with the id is left, a list without the id is
    returned as it is, and deleting again changes nothing. *)
Theorem delete_update_outcome prev i :
  (forall m, In m (deleteNotification_update i prev) -> get m "id" <> i) /\
  ((forall m, In m prev -> get m "id" <> i) -> deleteNotification_update i prev = prev) /\
  deleteNotification_update i (deleteNotification_update i prev)
  = deleteNotification_update i prev /\
  length (deleteNotification_update i prev) <= length prev.
Proof.
  assert (Hin : forall m, In m (deleteNotification_update i prev) -> get m "id" <> i).
  { intros m Hm. unfold deleteNotification_update in Hm.
    apply filter_In in Hm as [_ Hm]. apply negb_true_iff in Hm.
    now apply strict_eq_false. }
  assert (Hid : forall l, (forall m, In m l -> get m "id" <> i) ->
                          deleteNotification_update i l = l).
  { induction l as [|x l IH]; intros Hall; [reflexivity|].
    unfold deleteNotification_update. simpl.
    rewrite (proj2 (strict_eq_false _ _) (Hall x (or_introl eq_refl))). simpl.
    f_equal. apply IH. intros m Hm. apply Hall. now right. }
  repeat split; [exact Hin | apply Hid | now apply Hid | apply filter_length_le].
Qed.

Lemma delete_update_outcome_witness :
  let prev := [sample_record 7 false; sample_record 8 false] in
  (forall m, In m prev -> get m "id" <> JNum 9) /\
  deleteNotification_update (JNum 9) prev = prev.
Proof.
  intros prev.
  assert (H : forall m, In m prev -> get m "id" <> JNum 9).
  { intros m [<-|[<-|[]]]; discriminate. }
  split; [exact H|].
  exact (proj1 (proj2 (delete_update_outcome prev (JNum 9))) H).
Defined.

(** X4: a delete and a read mutation that settle in either order leave the same
    list, for any two ids: the read mutation keeps ids, so it never moves a
    record in or out of what the delete removes. *)
Theorem delete_read_commute prev i j :
  deleteNotification_update i (markAsRead_update j prev)
  = markAsRead_update j (deleteNotification_update i prev).
Proof.
  unfold deleteNotification_update, markAsRead_update.
  induction prev as [|x l IH]; [reflexivity|]. simpl.
  assert (Hx : get (if strict_eq (get x "id") j then with_read x else x) "id"
               = get x "id")
    by (destruct (strict_eq _ j); [apply with_read_id | reflexivity]).
  rewrite Hx. destruct (negb _); simpl; now rewrite IH.
Qed.

(** X5: the read mutation is idempotent, does nothing to a list without the id,
    and is absorbed by mark-all-read. *)
Theorem read_update_outcome prev i :
  markAsRead_update i (markAsRead_update i prev) = markAsRead_update i prev /\
  ((forall m, In m prev -> get m "id" <> i) -> markAsRead_update i prev = prev) /\
  markAllAsRead_update (markAsRead_update i prev) = markAllAsRead_update prev.
Proof.
  unfold markAsRead_update, markAllAsRead_update. repeat split.
  - rewrite map_map. apply map_ext. intros x.
    destruct (strict_eq (get x "id") i) eqn:E.
    + rewrite with_read_id, E. apply with_read_idem.
    + now rewrite E.
  - intros Hall. rewrite <- (map_id prev) at 2. apply map_ext_in.
    intros x Hx. now rewrite (proj2 (strict_eq_false _ _) (Hall x Hx)).
  - rewrite map_map. apply map_ext. intros x.
    destruct (strict_eq _ _); [apply with_read_idem | reflexivity].
Qed.

(** X6: read monotonicity: neither the read mutation nor mark-all-read turns a
    record that shows as read back to unread, so the unread count never
    grows under them, and it is zero after mark-all-read. *)
Theorem read_state_monotone prev i :
  (forall k notif, prev !! k = Some notif -> unread notif = false ->
     exists notif', markAsRead_update i prev !! k = Some notif' /\
                    unread notif' = false) /\
  length (List.filter unread (markAsRead_update i prev))
    <= length (List.filter unread prev) /\
  List.filter unread (markAllAsRead_update prev) = [].
Proof.
  repeat split.
  - intros k notif Hk Hread. rewrite markAsRead_update_lookup, Hk. simpl.
    eexists. split; [reflexivity|].
    destruct (strict_eq _ _); [apply unread_with_read | exact Hread].
  - unfold markAsRead_update. induction prev as [|x l IH]; [reflexivity|].
    simpl. destruct (strict_eq _ _).
    + rewrite unread_with_read. destruct (unread x); simpl; lia.
    + destruct (unread x); simpl; lia.
  - unfold markAllAsRead_update. induction prev as [|x l IH]; [reflexivity|].
    simpl. now rewrite unread_with_read.
Qed.

End Updaters.

(** ** Push frames, from the socket to the list *)

Lemma js_or_truthy (v d : jsval) : truthy d = true -> truthy (js_or v d) = true.
Proof. intros Hd. unfold js_or. destruct (truthy v) eqn:E; assumption. Qed.

Lemma pushed_record_object (h : heap) (a : nat) (clk : clock) :
  let f := fun k => match h !! a with Some o => get o k | None => JUndefined end in
  pushed_record h (JRef a) clk
  = inr (<["id" := js_or (f "id") (JStr (now_string clk))]>
        (<["title" := f "title"]>
        (<["message" := f "message"]>
        (<["notification_type" := js_or (f "type") (f "notification_type")]>
        (<["data" := f "data"]>
        (<["timestamp" := js_or (f "created_at") (JStr (iso_timestamp clk))]>
        (<["created_at" := js_or (f "created_at") (JStr (iso_created_at clk))]>
        (<["read" := JBool false]>
        (<["is_read" := JBool false]> ∅))))))))).
Proof. reflexivity. Qed.

(** X7: the record built from a pushed payload: building it throws exactly when
    the payload is [null] or [undefined]; otherwise the record is unread,
    carries the payload's id when that is truthy and the clock's string when
    it is not, so that its id is truthy whenever the clock's string is not
    empty. *)
Theorem pushed_record_outcome (h : heap) (notificationData : jsval) (clk : clock) :
  (notificationData = JUndefined \/ notificationData = JNull ->
   pushed_record h notificationData clk = inl TypeError) /\
  (notificationData <> JUndefined -> notificationData <> JNull ->
   exists r id_,
     pushed_record h notificationData clk = inr r /\
     prop h notificationData "id" = inr id_ /\
     get r "id" = (if truthy id_ then id_ else JStr (now_string clk)) /\
     (now_string clk <> "" -> truthy (get r "id") = true) /\
     get r "read" = JBool false /\ get r "is_read" = JBool false /\
     unread r = true).
Proof.
  split.
  - intros [-> | ->]; reflexivity.
  - intros Hu Hn.
    assert (Hgen : forall r0 v,
              get (<["id" := js_or v (JStr (now_string clk))]> r0) "id"
              = (if truthy v then v else JStr (now_string clk)) /\
              (now_string clk <> "" ->
               truthy (get (<["id" := js_or v (JStr (now_string clk))]> r0) "id") = true)).
    { intros r0 v. unfold get. rewrite lookup_insert_eq. simpl.
      split; [reflexivity|]. intros Hnow. apply js_or_truthy. simpl.
      apply negb_true_iff, String.eqb_neq, Hnow. }
    destruct notificationData as [| |b|z|str|a]; try contradiction.
    1-3: (eexists _, JUndefined; split; [reflexivity|]; split; [reflexivity|];
          split; [apply Hgen|]; split; [apply Hgen|]; repeat split).
    rewrite pushed_record_object. cbv zeta.
    eexists _, _. split; [reflexivity|]. split; [reflexivity|].
    split; [apply Hgen|]. split; [apply Hgen|]. repeat split.
Qed.

Lemma pushed_record_outcome_witness :
  let h : heap := <[1%nat := <["title" := JStr "Deploy"]> ∅]> ∅ in
  JRef 1 <> JUndefined /\ JRef 1 <> JNull /\
  exists r, pushed_record h (JRef 1) sample_clock = inr r /\
            get r "id" = JStr "1767225600000" /\ unread r = true.
Proof.
  intros h.
  assert (Hu : JRef 1 <> JUndefined) by discriminate.
  assert (Hn : JRef 1 <> JNull) by discriminate.
  split; [exact Hu|]. split; [exact Hn|].
  destruct (proj2 (pushed_record_outcome h (JRef 1) sample_clock) Hu Hn)
    as (r & id_ & Hr & Hid & Hget & _ & _ & _ & Hunread).
  exists r. split; [exact Hr|]. split; [|exact Hunread].
  rewrite Hget. vm_compute in Hid. injection Hid as <-. reflexivity.
Defined.

(** X8: whatever the frame, [ws.onmessage] ends normally: every exception of
    its body is caught. A frame of type "notification" whose [data] is
    missing or [null] is treated like a frame that does not parse: logged,
    [onMessage] not called, component state and alerts as they were. A
    frame of type "unread_count" is logged and changes nothing else. *)
Theorem onmessage_absorbs_errors
    (onMessage : jsobj -> app -> app) (event_data : frame) (clk : clock) (s : app) :
  (exists s', ws_onmessage onMessage event_data clk s = Normal s') /\
  (forall data h,
     event_data = Parsed data h ->
     prop h data "type" = inr (JStr "notification") ->
     prop h data "data" = inr JUndefined \/ prop h data "data" = inr JNull ->
     exists s', ws_onmessage onMessage event_data clk s = Normal s' /\
       comp s' = comp s /\ ws_hook s' = ws_hook s /\
       alerts (env s') = alerts (env s) /\
       console (env s')
       = (console (env s) ++ ["Received WebSocket message:";
                              "Error parsing WebSocket message:"])%list) /\
  (forall data h,
     event_data = Parsed data h ->
     prop h data "type" = inr (JStr "unread_count") ->
     exists s', ws_onmessage onMessage event_data clk s = Normal s' /\
       comp s' = comp s /\ ws_hook s' = ws_hook s /\
       alerts (env s') = alerts (env s)).
Proof.
  split; [|split].
  - unfold ws_onmessage.
    destruct (ws_onmessage_try onMessage event_data clk s); eauto.
  - intros data h -> Hty Hdata. unfold ws_onmessage, ws_onmessage_try.
    rewrite Hty. simpl.
    destruct Hdata as [-> | ->]; simpl;
      (eexists; split; [reflexivity|]; repeat split; simpl;
       now rewrite <- app_assoc).
  - intros data h -> Hty. unfold ws_onmessage, ws_onmessage_try.
    rewrite Hty. simpl. eexists. split; [reflexivity|]. repeat split.
Qed.

Lemma onmessage_absorbs_errors_witness :
  let h : heap := <[0%nat := <["type" := JStr "notification"]> ∅]> ∅ in
  let s := sample_app [sample_record 7 false] in
  exists s', ws_onmessage handleNewNotification (Parsed (JRef 0) h) sample_clock s
             = Normal s' /\ comp s' = comp s.
Proof.
  intros h s.
  destruct (proj1 (proj2 (onmessage_absorbs_errors handleNewNotification
                            (Parsed (JRef 0) h) sample_clock s))
              (JRef 0) h eq_refl eq_refl (or_introl eq_refl))
    as (s' & Hrun & Hcomp & _).
  exists s'. split; assumption.
Defined.

(** X9: a well-formed notification frame whose id is truthy and not in the list
    puts one unread record with that id, title and message at the front of
    the list; the handler ends normally. *)
Theorem notification_frame_merged
    (a b : nat) (o nd : jsobj) (h : heap) (clk : clock) (s : app) :
  h !! a = Some o -> get o "type" = JStr "notification" ->
  get o "data" = JRef b -> h !! b = Some nd ->
  truthy (get nd "id") = true ->
  (forall m, In m (store s) -> get m "id" <> get nd "id") ->
  exists s' r,
    ws_onmessage handleNewNotification (Parsed (JRef a) h) clk s = Normal s' /\
    store s' = r :: store s /\
    get r "id" = get nd "id" /\ get r "title" = get nd "title" /\
    get r "message" = get nd "message" /\ unread r = true.
Proof.
  intros Ha Hty Hdata Hb Hid Hfresh.
  unfold ws_onmessage, ws_onmessage_try. simpl prop. rewrite Ha, Hty. simpl.
  rewrite Hdata, pushed_record_object. cbv zeta. rewrite Hb.
  eexists _, _. split; [reflexivity|].
  rewrite store_handleNewNotification. simpl store.
  assert (Hget : forall r0, get (<["id" := js_or (get nd "id") (JStr (now_string clk))]> r0) "id"
                            = get nd "id").
  { intros r0. unfold get at 1. rewrite lookup_insert_eq. simpl.
    unfold js_or. now rewrite Hid. }
  unfold handleNewNotification_update.
  rewrite no_same_id by (intros m Hm; rewrite Hget; now apply Hfresh).
  split; [reflexivity|]. split; [apply Hget|]. repeat split.
Qed.

Lemma notification_frame_merged_witness :
  let s := sample_app [sample_record 7 false] in
  exists s' r,
    ws_onmessage handleNewNotification (sample_frame "notification" 9) sample_clock s
      = Normal s' /\
    store s' = r :: store s /\ get r "id" = JNum 9.
Proof.
  intros s.
  destruct (notification_frame_merged 0 1
              (<["type" := JStr "notification"]> (<["data" := JRef 1]> ∅))
              (<["id" := JNum 9]> (<["title" := JStr "Deploy"]> ∅))
              (<[0%nat := <["type" := JStr "notification"]> (<["data" := JRef 1]> ∅)]>
                 (<[1%nat := <["id" := JNum 9]> (<["title" := JStr "Deploy"]> ∅)]> ∅))
              sample_clock s)
    as (s' & r & Hrun & Hstore & Hid & _); try reflexivity.
  - assert (Hs : store s = [sample_record 7 false]) by (vm_compute; reflexivity).
    rewrite Hs. intros m [<-|[]]. discriminate.
  - exists s', r. repeat split; assumption.
Defined.

(** ** What React's commit leaves alone *)

(** The commit touches the sockets, the console and the hook's cells only. *)
Lemma env_cleanup (s : app) :
  exists wsl c, env (useWebSocket_cleanup s)
                = env_set_websockets wsl (env_set_console c (env s)).
Proof.
  unfold useWebSocket_cleanup.
  destruct (effect_ws _) as [h|];
    [destruct (readyState_of h s) as [[]|]|];
    destruct s as [[] ? ?]; cbn; eexists _, _; reflexivity.
Qed.

Lemma env_effect (userId : jsval) (s : app) :
  exists wsl c, env (fst (useWebSocket_effect userId s))
                = env_set_websockets wsl (env_set_console c (env s)).
Proof.
  unfold useWebSocket_effect.
  destruct (negb _); [|destruct (getAuthToken s) as [tok|];
                       [destruct (no_token (Some tok))|]];
    destruct s as [[] ? ?]; cbn; eexists _, _; reflexivity.
Qed.

Lemma env_commit (s : app) :
  exists wsl c, env (commit s) = env_set_websockets wsl (env_set_console c (env s)).
Proof.
  unfold commit. case_bool_decide.
  - destruct s as [[] ? ?]; cbn; eexists _, _; reflexivity.
  - destruct (env_cleanup s) as (w1 & c1 & H1).
    destruct (env_effect (userId_of s) (useWebSocket_cleanup s)) as (w2 & c2 & H2).
    destruct (useWebSocket_effect _ _) as [s' ws]. simpl in *.
    rewrite H2, H1. eexists _, _. reflexivity.
Qed.

Lemma token_commit (s : app) : token (env (commit s)) = token (env s).
Proof. destruct (env_commit s) as (wsl & c & ->). reflexivity. Qed.

Lemma sent_commit (s : app) : sent (env (commit s)) = sent (env s).
Proof. destruct (env_commit s) as (wsl & c & ->). reflexivity. Qed.

Lemma timers_commit (s : app) : timers (env (commit s)) = timers (env s).
Proof. destruct (env_commit s) as (wsl & c & ->). reflexivity. Qed.

Lemma alerts_commit (s : app) : alerts (env (commit s)) = alerts (env s).
Proof. destruct (env_commit s) as (wsl & c & ->). reflexivity. Qed.

(** ** Starting a session *)

(** X10: without a usable token ([null] or the empty string) the first render
    issues no request and constructs no socket, and ends on the login form;
    the permission prompt is requested exactly when the permission is still
    "default". *)
Theorem cold_start_shows_login (tok : option string) (perm : permission) :
  no_token tok = true ->
  inflight (mount tok perm) = [] /\
  websockets (env (app_state (mount tok perm))) = [] /\
  comp (app_state (mount tok perm))
  = {| user := None; notifications := []; loading := false;
       showNotifications := false; error := None |} /\
  shows_login (app_state (mount tok perm)) = true /\
  token (env (app_state (mount tok perm))) = tok /\
  permission_requested (env (app_state (mount tok perm)))
  = match perm with PermDefault => true | _ => false end.
Proof.
  intros Htok. unfold mount, spawn, initializeApp. cbn.
  change (match tok with Some t => t =? "" | None => true end) with (no_token tok).
  rewrite Htok. destruct perm; cbn; repeat split.
Qed.

Lemma cold_start_shows_login_witness :
  no_token (Some "") = true /\
  inflight (mount (Some "") PermDefault) = [] /\
  shows_login (app_state (mount (Some "") PermDefault)) = true.
Proof.
  assert (H : no_token (Some "") = true) by reflexivity.
  split; [exact H|].
  destruct (cold_start_shows_login (Some "") PermDefault H) as (Hi & _ & _ & Hl & _).
  split; assumption.
Defined.

(** X11: with a token stored, a profile request that fails ends the bootstrap on
    the login form: the token is removed, there is no user, the error
    message is set, nothing is pending and no socket was constructed. *)
Theorem bootstrap_profile_failure (tok : string) (perm : permission) (e : exn) :
  tok <> "" ->
  exists w,
    step (Settle 0 (Profile_settled (Rejected e))) (mount (Some tok) perm) = Some w /\
    inflight w = [] /\
    token (env (app_state w)) = None /\
    comp (app_state w)
    = {| user := None; notifications := []; loading := false;
         showNotifications := false; error := Some "Failed to load user data" |} /\
    websockets (env (app_state w)) = [] /\
    shows_login (app_state w) = true.
Proof.
  intros Htok. apply String.eqb_neq in Htok.
  unfold step, handle, settle, mount, spawn, initializeApp. cbn. rewrite Htok.
  destruct perm; cbn; (eexists; split; [reflexivity|]; repeat split).
Qed.

Lemma bootstrap_profile_failure_witness :
  "tok" <> "" /\
  exists w,
    step (Settle 0 (Profile_settled (Rejected (Error "Failed to fetch profile"))))
      (mount (Some "tok") PermGranted) = Some w /\
    token (env (app_state w)) = None.
Proof.
  assert (H : "tok" <> "") by discriminate.
  split; [exact H|].
  destruct (bootstrap_profile_failure "tok" PermGranted
              (Error "Failed to fetch profile") H) as (w & Hs & _ & Ht & _).
  exists w. split; assumption.
Defined.

(** X12: the list request of the bootstrap, wherever it settles: a rejection, and
    equally a response whose body is [null], signs the user out (token
    removed, no user, error message set, spinner off) and leaves the list as
    it was. *)
Theorem bootstrap_list_failure (tok : string) (perm : permission) (profileData : jsobj) :
  tok <> "" ->
  exists t,
    handle (Settle 0 (Profile_settled (Fulfilled profileData))) (mount (Some tok) perm)
      = Some {| app_state :=
                  setUser (Some profileData)
                    (request_permission_effect
                       (setLoading true (initial_app (Some tok) perm)));
                inflight := [t] |} /\
    forall (w : world) (i : nat) (o : outcome notifications_data),
      inflight w !! i = Some t ->
      (exists e, o = Rejected e) \/ o = Fulfilled NDNull ->
      exists w', step (Settle i (Notifications_settled o)) w = Some w' /\
        user (comp (app_state w')) = None /\
        token (env (app_state w')) = None /\
        error (comp (app_state w')) = Some "Failed to load user data" /\
        loading (comp (app_state w')) = false /\
        store (app_state w') = store (app_state w) /\
        inflight w' = delete i (inflight w).
Proof.
  intros Htok. apply String.eqb_neq in Htok.
  eexists. split.
  - unfold mount, spawn, initializeApp. cbn. rewrite Htok.
    destruct perm; reflexivity.
  - intros w i o Hi Ho. settle_at Hi. cbn.
    destruct Ho as [[e ->] | ->]; cbn;
      (eexists; split; [reflexivity|]; cbn;
       rewrite !comp_commit, store_commit, token_commit; cbn;
       repeat split; apply app_nil_r).
Qed.

Lemma bootstrap_list_failure_witness :
  "tok" <> "" /\
  exists w,
    run [Settle 0 (Profile_settled (Fulfilled sample_profile));
         Settle 0 (Notifications_settled (Fulfilled NDNull))]
        (mount (Some "tok") PermGranted) = Some w /\
    user (comp (app_state w)) = None /\ token (env (app_state w)) = None.
Proof.
  assert (H : "tok" <> "") by discriminate.
  split; [exact H|].
  destruct (bootstrap_list_failure "tok" PermGranted sample_profile H)
    as (t & Hstep & Hfail).
  pose (w1 := sync commit
                {| app_state :=
                     setUser (Some sample_profile)
                       (request_permission_effect
                          (setLoading true (initial_app (Some "tok") PermGranted)));
                   inflight := [t] |}).
  destruct (Hfail w1 0%nat (Fulfilled NDNull) eq_refl (or_intror eq_refl))
    as (w & Hw & Hu & Ht & _).
  assert (H1 : step (Settle 0 (Profile_settled (Fulfilled sample_profile)))
                 (mount (Some "tok") PermGranted) = Some w1)
    by (unfold step; rewrite Hstep; reflexivity).
  exists w. split; [|split; assumption].
  rewrite !run_cons, H1. simpl. rewrite Hw. reflexivity.
Defined.

(** ** Signing in *)

Lemma mount_cold (tok0 : option string) (perm : permission) :
  no_token tok0 = true ->
  mount tok0 perm
  = {| app_state := request_permission_effect (setLoading false (initial_app tok0 perm));
       inflight := [] |}.
Proof.
  intros Htok. unfold mount, spawn, initializeApp. cbn.
  change (match tok0 with Some t => t =? "" | None => true end) with (no_token tok0).
  rewrite Htok. destruct perm; reflexivity.
Qed.

Lemma userId_of_comp (s s' : app) : comp s' = comp s -> userId_of s' = userId_of s.
Proof. unfold userId_of. now intros ->. Qed.

(** After the commit the effect has run for the current [userId]. *)
Lemma commit_synced (s : app) :
  userId_of (commit s) = effect_userId (ws_hook (commit s)).
Proof.
  rewrite (userId_of_comp s (commit s)) by apply comp_commit.
  unfold commit. case_bool_decide as H; [exact H|].
  destruct (useWebSocket_effect _ _) as [s' ws]. reflexivity.
Qed.

(** The first run of the effect for a user: it constructs a socket exactly
    when the user id is truthy and a non-empty token is stored. *)
Lemma websockets_commit_first (s : app) (tok : string) :
  effect_ws (ws_hook s) = None -> effect_userId (ws_hook s) = JUndefined ->
  token (env s) = Some tok ->
  websockets (env (commit s))
  = if truthy (userId_of s) && negb (String.eqb tok "")
    then (websockets (env s)
          ++ [{| ws_url := WS_BASE_URL ++ "/ws/notifications/?token=" ++ tok;
                 readyState := CONNECTING |}])%list
    else websockets (env s).
Proof.
  intros Hws Hdep Htok. unfold commit. rewrite Hdep.
  case_bool_decide as Hu; [now rewrite Hu|].
  unfold useWebSocket_cleanup, useWebSocket_effect, getAuthToken.
  rewrite Hws, Htok. simpl.
  destruct (truthy (userId_of s)); [|reflexivity]. simpl.
  destruct (String.eqb tok ""); reflexivity.
Qed.

(** X13: a login from the login form of a cold start, when every request
    succeeds: the token of the response is stored, the profile becomes the
    user, the fetched list becomes the store, the spinner is off and the
    notification centre shows. One socket is constructed, for the stored
    token, when the user id is truthy and the token is not empty; none
    otherwise. *)
Theorem login_success
    (tok0 : option string) (perm : permission) (email password tok : string)
    (profileData : jsobj) (d : notifications_data) (l : list jsobj) :
  no_token tok0 = true -> notificationsList d = inr l ->
  exists w,
    run [SubmitLogin email password;
         Settle 0 (Login_settled (Fulfilled tok));
         Settle 0 (Profile_settled (Fulfilled profileData));
         Settle 0 (Notifications_settled (Fulfilled d))] (mount tok0 perm) = Some w /\
    inflight w = [] /\
    token (env (app_state w)) = Some tok /\
    comp (app_state w)
    = {| user := Some profileData; notifications := l; loading := false;
         showNotifications := false; error := None |} /\
    shows_centre (app_state w) = true /\
    websockets (env (app_state w))
    = if truthy (get profileData "id") && negb (String.eqb tok "")
      then [{| ws_url := WS_BASE_URL ++ "/ws/notifications/?token=" ++ tok;
               readyState := CONNECTING |}]
      else [].
Proof.
  intros H0 Hd. rewrite (mount_cold _ _ H0).
  destruct perm; cbn; rewrite Hd; cbn;
    (eexists; split; [reflexivity|]; split; [reflexivity|]);
    unfold sync; cbn [app_state];
    (match goal with
     | |- context [commit (setLoading false (setNotifications l (commit ?s3)))] =>
         rewrite (commit_stable (setLoading false (setNotifications l (commit s3))))
           by exact (commit_synced s3)
     end);
    cbn; rewrite !token_commit, !comp_commit; cbn;
    (split; [reflexivity|]); (split; [reflexivity|]); (split; [reflexivity|]);
    rewrite (websockets_commit_first _ tok);
    try (rewrite ?token_commit; reflexivity);
    rewrite !commit_stable by reflexivity; reflexivity.
Qed.

Lemma login_success_witness :
  no_token None = true /\
  notificationsList (NDArray [sample_record 7 false]) = inr [sample_record 7 false] /\
  exists w,
    run [SubmitLogin "user@example.com" "secret";
         Settle 0 (Login_settled (Fulfilled "tok"));
         Settle 0 (Profile_settled (Fulfilled sample_profile));
         Settle 0 (Notifications_settled (Fulfilled (NDArray [sample_record 7 false])))]
        (mount None PermDenied) = Some w /\
    token (env (app_state w)) = Some "tok" /\
    store (app_state w) = [sample_record 7 false].
Proof.
  split; [reflexivity|]. split; [reflexivity|].
  destruct (login_success None PermDenied "user@example.com" "secret" "tok"
              sample_profile (NDArray [sample_record 7 false])
              [sample_record 7 false] eq_refl eq_refl)
    as (w & Hrun & _ & Htok & Hcomp & _).
  exists w. split; [exact Hrun|]. split; [exact Htok|].
  unfold store. now rewrite Hcomp.
Defined.

(** X14: a login that the gateway rejects: back on the login form with the
    message of the rejection, or "Login failed" when that message is empty;
    the stored token is what it was, no socket is constructed. *)
Theorem login_rejected
    (tok0 : option string) (perm : permission) (email password : string) (ex : exn) :
  no_token tok0 = true ->
  exists w,
    run [SubmitLogin email password; Settle 0 (Login_settled (Rejected ex))]
        (mount tok0 perm) = Some w /\
    inflight w = [] /\
    token (env (app_state w)) = tok0 /\
    comp (app_state w)
    = {| user := None; notifications := []; loading := false;
         showNotifications := false;
         error := Some (message_or ex "Login failed") |} /\
    websockets (env (app_state w)) = [] /\
    shows_login (app_state w) = true.
Proof.
  intros H0. rewrite (mount_cold _ _ H0).
  destruct perm; cbn;
    (eexists; split; [reflexivity|]; split; [reflexivity|]);
    unfold sync; cbn [app_state];
    rewrite !commit_stable by reflexivity; repeat split.
Qed.

Lemma login_rejected_witness :
  no_token None = true /\
  exists w,
    run [SubmitLogin "user@example.com" "wrong";
         Settle 0 (Login_settled (Rejected (Error "")))]
        (mount None PermDenied) = Some w /\
    error (comp (app_state w)) = Some "Login failed".
Proof.
  split; [reflexivity|].
  destruct (login_rejected None PermDenied "user@example.com" "wrong" (Error "") eq_refl)
    as (w & Hrun & _ & _ & Hcomp & _).
  exists w. split; [exact Hrun|]. now rewrite Hcomp.
Defined.



(** ** The socket effect, closing and signing out *)

(** X16: the effect of the hook constructs a socket exactly when [userId] is
    truthy and a non-empty token is stored. Without a truthy [userId] it
    does nothing at all; with one but without a token it only records the
    error "No authentication token"; otherwise the new socket is the last
    one, is CONNECTING, and its URL ends with the token. *)
Theorem effect_connects_iff (userId : jsval) (s : app) :
  (snd (useWebSocket_effect userId s) = None
   <-> truthy userId = false \/ no_token (getAuthToken s) = true) /\
  (truthy userId = false -> fst (useWebSocket_effect userId s) = s) /\
  (truthy userId = true -> no_token (getAuthToken s) = true ->
   fst (useWebSocket_effect userId s)
   = setConnectionError (Some "No authentication token") s) /\
  (forall tok, truthy userId = true -> getAuthToken s = Some tok -> tok <> "" ->
   snd (useWebSocket_effect userId s) = Some (length (websockets (env s))) /\
   websockets (env (fst (useWebSocket_effect userId s)))
   = (websockets (env s)
      ++ [{| ws_url := WS_BASE_URL ++ "/ws/notifications/?token=" ++ tok;
             readyState := CONNECTING |}])%list).
Proof.
  unfold useWebSocket_effect.
  destruct (truthy userId); simpl;
    [destruct (getAuthToken s) as [tok|] eqn:Et; simpl;
     [destruct (String.eqb tok "") eqn:Ee; simpl|]|].
  - split; [split; [now right | reflexivity]|].
    split; [discriminate|]. split; [reflexivity|].
    intros tok' _ [= <-] Hne. apply String.eqb_neq in Hne. congruence.
  - split; [split; [discriminate | intros [|]; discriminate]|].
    split; [discriminate|]. split; [discriminate|].
    intros tok' _ [= <-] _. split; reflexivity.
  - split; [split; [now right | reflexivity]|].
    split; [discriminate|]. split; [reflexivity|]. discriminate.
  - split; [split; [now left | reflexivity]|].
    split; [reflexivity|]. split; discriminate.
Qed.

Lemma effect_connects_iff_witness :
  let s := initial_app (Some "tok") PermGranted in
  truthy (JNum 1) = true /\ getAuthToken s = Some "tok" /\ "tok" <> "" /\
  snd (useWebSocket_effect (JNum 1) s) = Some 0%nat.
Proof.
  intros s.
  assert (Hne : "tok" <> "") by discriminate.
  split; [reflexivity|]. split; [reflexivity|]. split; [exact Hne|].
  exact (proj1 (proj2 (proj2 (proj2 (effect_connects_iff (JNum 1) s)))
                  "tok" eq_refl eq_refl Hne)).
Defined.

Lemma hook_commit (s : app) :
  exists ce uid ws,
    ws_hook (commit s)
    = hook_set_effect uid ws (hook_set_connectionError ce (ws_hook s)).
Proof.
  unfold commit. case_bool_decide.
  - destruct s as [? ? []]; cbn; eexists _, _, _; reflexivity.
  - unfold useWebSocket_cleanup, useWebSocket_effect.
    destruct (effect_ws _) as [h|];
      [destruct (readyState_of h s) as [[]|]|];
      (destruct (negb _); [|destruct (getAuthToken _) as [tok|];
                            [destruct (no_token (Some tok))|]]);
      destruct s as [? ? []]; cbn; eexists _, _, _; reflexivity.
Qed.

(** X17: a close event, for any socket the hook ever constructed: the hook shows
    disconnected and forgets its socket; a timer of 5000 ms is armed when
    the code is not 1000 and none when it is; the component's cells and the
    pending requests are untouched. *)
Theorem close_arms_by_code (w : world) (h : nat) (code : Z) (r : ready_state) :
  readyState_of h (app_state w) = Some r -> r <> CLOSED ->
  exists w',
    step (WsClose h code) w = Some w' /\
    inflight w' = inflight w /\
    comp (app_state w') = comp (app_state w) /\
    isConnected (ws_hook (app_state w')) = false /\
    socket (ws_hook (app_state w')) = None /\
    timers (env (app_state w'))
    = if (code =? 1000)%Z then timers (env (app_state w))
      else (timers (env (app_state w)) ++ [5000%Z])%list.
Proof.
  intros Hr Hopen. unfold step, handle. rewrite Hr.
  assert (Hgo : exists w',
            sync commit
              <$> Some (sync (fun s => ws_onclose code (set_readyState h CLOSED s)) w)
            = Some w' /\
            inflight w' = inflight w /\
            comp (app_state w') = comp (app_state w) /\
            isConnected (ws_hook (app_state w')) = false /\
            socket (ws_hook (app_state w')) = None /\
            timers (env (app_state w'))
            = if (code =? 1000)%Z then timers (env (app_state w))
              else (timers (env (app_state w)) ++ [5000%Z])%list).
  { eexists. split; [reflexivity|]. split; [reflexivity|]. simpl.
    rewrite comp_commit, timers_commit.
    destruct (hook_commit (ws_onclose code (set_readyState h CLOSED (app_state w))))
      as (ce & uid & ws & ->).
    unfold ws_onclose. destruct (code =? 1000)%Z; repeat split. }
  destruct r; try contradiction; exact Hgo.
Qed.

Lemma close_arms_by_code_witness :
  let w := sample_world [sample_record 7 false] in
  readyState_of 0 (app_state w) = Some CONNECTING /\ CONNECTING <> CLOSED /\
  exists w', step (WsClose 0 1000) w = Some w' /\
             timers (env (app_state w')) = timers (env (app_state w)).
Proof.
  intros w.
  assert (Hr : readyState_of 0 (app_state w) = Some CONNECTING)
    by (vm_compute; reflexivity).
  assert (Hn : CONNECTING <> CLOSED) by discriminate.
  split; [exact Hr|]. split; [exact Hn|].
  destruct (close_arms_by_code w 0 1000 CONNECTING Hr Hn)
    as (w' & Hstep & _ & _ & _ & _ & Ht).
  exists w'. split; [exact Hstep | exact Ht].
Defined.

Lemma commit_no_user (s : app) :
  user (comp s) = None ->
  commit s
  = if bool_decide (JUndefined = effect_userId (ws_hook s)) then s
    else on_hook (hook_set_effect JUndefined None) (useWebSocket_cleanup s).
Proof.
  intros Hu. unfold commit, userId_of. rewrite Hu.
  case_bool_decide; reflexivity.
Qed.

Lemma readyState_of_set (h : nat) (r : ready_state) (s : app) :
  readyState_of h (set_readyState h r s) = (fun _ => r) <$> readyState_of h s.
Proof.
  unfold readyState_of, set_readyState. simpl.
  rewrite list_lookup_alter_eq. now destruct (websockets (env s) !! h).
Qed.

(** X18: signing out clears the token, the user, the list, the toast flag and
    the error, and shows the login form. No socket is constructed; the
    socket of the effect is asked to close when it is OPEN and is left as it
    is otherwise (a socket still CONNECTING keeps connecting). Pending
    requests and pending timers are not cancelled. *)
Theorem logout_tears_down (w : world) :
  shows_centre (app_state w) = true ->
  exists w',
    step ClickLogout w = Some w' /\
    inflight w' = inflight w /\
    token (env (app_state w')) = None /\
    comp (app_state w')
    = {| user := None; notifications := []; loading := false;
         showNotifications := false; error := None |} /\
    shows_login (app_state w') = true /\
    timers (env (app_state w')) = timers (env (app_state w)) /\
    length (websockets (env (app_state w')))
    = length (websockets (env (app_state w))) /\
    forall h, effect_ws (ws_hook (app_state w)) = Some h ->
      effect_userId (ws_hook (app_state w)) <> JUndefined ->
      readyState_of h (app_state w')
      = match readyState_of h (app_state w) with
        | Some OPEN => Some CLOSING
        | r => r
        end.
Proof.
  intros Hshow. unfold step, handle. rewrite Hshow. simpl.
  eexists. split; [reflexivity|]. split; [reflexivity|]. simpl.
  set (s := app_state w) in *.
  assert (Hload : loading (comp s) = false).
  { unfold shows_centre in Hshow. apply andb_true_iff in Hshow as [Hl _].
    now apply negb_true_iff in Hl. }
  assert (Hcomp : comp (handleLogout s)
                  = {| user := None; notifications := []; loading := false;
                       showNotifications := false; error := None |}).
  { destruct s as [b [u n l sh er] hk]. cbn in Hload. subst l. reflexivity. }
  assert (Hcl : useWebSocket_cleanup (handleLogout s)
                = match effect_ws (ws_hook s) with
                  | Some h => match readyState_of h s with
                              | Some OPEN => set_readyState h CLOSING (handleLogout s)
                              | _ => handleLogout s
                              end
                  | None => handleLogout s
                  end) by reflexivity.
  rewrite token_commit, comp_commit, timers_commit.
  unfold shows_login. rewrite comp_commit, Hcomp.
  split; [reflexivity|]. split; [reflexivity|]. split; [reflexivity|].
  split; [reflexivity|].
  rewrite commit_no_user by (now rewrite Hcomp).
  change (ws_hook (handleLogout s)) with (ws_hook s).
  case_bool_decide as Hdep.
  - split; [reflexivity|]. intros h _ Hne. congruence.
  - rewrite Hcl. split.
    + destruct (effect_ws (ws_hook s)) as [h|]; [|reflexivity].
      destruct (readyState_of h s) as [[]|]; try reflexivity.
      cbn. apply length_alter.
    + intros h Hh _. rewrite Hh.
      destruct (readyState_of h s) as [[]|] eqn:Er; try exact Er.
      change (readyState_of h (set_readyState h CLOSING s) = Some CLOSING).
      now rewrite readyState_of_set, Er.
Qed.

Lemma logout_tears_down_witness :
  let w := sample_world [sample_record 7 false] in
  shows_centre (app_state w) = true /\
  exists w', step ClickLogout w = Some w' /\
             store (app_state w') = [] /\ token (env (app_state w')) = None.
Proof.
  intros w.
  assert (H : shows_centre (app_state w) = true) by (vm_compute; reflexivity).
  split; [exact H|].
  destruct (logout_tears_down w H) as (w' & Hstep & _ & Htok & Hcomp & _).
  exists w'. split; [exact Hstep|]. split; [|exact Htok].
  unfold store. now rewrite Hcomp.
Defined.

(** X19: the "mark_read" frame of markAsRead: nothing is sent when the remote
    call is rejected; when it is fulfilled, one frame with the id goes to
    the socket the hook held when the handler was called, provided that
    socket is OPEN when the call settles, and nothing is sent otherwise. *)
Theorem markAsRead_notifies_socket (notificationId : jsval) (w : world) :
  exists t,
    spawn (markAsRead notificationId) w
      = {| app_state := app_state w; inflight := inflight w ++ [t] |} /\
    forall (w1 : world) (i : nat),
      inflight w1 !! i = Some t ->
      (forall e, exists w2,
         step (Settle i (Read_settled (Rejected e))) w1 = Some w2 /\
         sent (env (app_state w2)) = sent (env (app_state w1))) /\
      (exists w2,
         step (Settle i (Read_settled (Fulfilled tt))) w1 = Some w2 /\
         sent (env (app_state w2))
         = match socket (ws_hook (app_state w)) with
           | Some h =>
               match readyState_of h (app_state w1) with
               | Some OPEN => (sent (env (app_state w1)) ++ [(h, notificationId)])%list
               | _ => sent (env (app_state w1))
               end
           | None => sent (env (app_state w1))
           end).
Proof.
  eexists. split; [reflexivity|].
  intros w1 i Hi. split.
  - intros e. settle_at Hi. simpl. eexists. split; [reflexivity|].
    simpl. now rewrite sent_commit.
  - settle_at Hi. simpl. eexists. split; [reflexivity|].
    simpl. rewrite sent_commit. unfold sendMessage, readyState_of.
    destruct (socket (ws_hook (app_state w))) as [h|]; [|reflexivity].
    simpl. destruct (websockets (env (app_state w1)) !! h) as [[u []]|];
      simpl; reflexivity.
Qed.

Lemma markAsRead_notifies_socket_witness :
  let w := sample_world [sample_record 7 false] in
  exists w1 w2,
    step (ClickMarkAsRead (JNum 7)) w = Some w1 /\
    step (Settle 0 (Read_settled (Rejected (Error "Failed to mark notification as read"))))
      w1 = Some w2 /\
    sent (env (app_state w2)) = sent (env (app_state w1)).
Proof.
  intros w.
  destruct (markAsRead_notifies_socket (JNum 7) w) as (t & Hspawn & Hsettle).
  pose (w1 := sync commit (spawn (markAsRead (JNum 7)) w)).
  assert (Hi : inflight w1 !! 0%nat = Some t).
  { unfold w1. rewrite Hspawn. reflexivity. }
  destruct (proj1 (Hsettle w1 0%nat Hi) (Error "Failed to mark notification as read"))
    as (w2 & Hstep & Hsent).
  exists w1, w2. split; [|split; assumption].
  vm_compute. reflexivity.
Defined.

(** ** Unique ids along a session *)

Section Keeps.

Variable P : app -> Prop.
Variable ok : notifications_data -> Prop.

(** The state satisfies [P] and every suspended handler keeps it. *)
Let Inv (w : world) : Prop := P (app_state w) /\ Forall (keeps P ok) (inflight w).

Lemma advance_keeps (t : task unit) (s : app) :
  keeps P ok t -> P s ->
  P (fst (advance t s)) /\
  forall t', snd (advance t s) = Some t' -> keeps P ok t'.
Proof.
  revert s. induction t as [a|e|f k IH|k IH|em pw k IH|k IH|k IH|i k IH|i k IH|l k IH];
    intros s Hk Hs; simpl in *;
    try (split; [exact Hs | intros t' [= <-]; exact Hk]);
    try (split; [exact Hs | discriminate]).
  - destruct Hk as [Hf Hk]. apply IH; auto.
  - apply IH; auto.
Qed.

Lemma resume_keeps (t t' : task unit) (r : response) :
  keeps P ok t -> event_ok ok (Settle 0 r) -> resume t r = Some t' -> keeps P ok t'.
Proof.
  intros Hk Hr. destruct t, r; simpl; try discriminate;
    try (intros [= <-]; now apply Hk).
  - intros [= <-]. apply Hk. intros d ->. exact Hr.
  - destruct (_ =? _)%nat; [|discriminate]. intros [= <-]. apply Hk.
Qed.

Lemma spawn_keeps (t : task unit) (w : world) :
  keeps P ok t -> Inv w -> Inv (spawn t w).
Proof.
  intros Hk [Hs Hin]. unfold spawn.
  destruct (advance_keeps t (app_state w) Hk Hs) as [Hs' Hp].
  destruct (advance t (app_state w)) as [s' [t'|]]; split; simpl in *; auto.
  - apply Forall_app. split; [exact Hin|]. constructor; [now apply Hp | constructor].
  - now rewrite app_nil_r.
Qed.

Lemma settle_keeps (i : nat) (r : response) (w w' : world) :
  event_ok ok (Settle 0 r) -> Inv w -> settle i r w = Some w' -> Inv w'.
Proof.
  intros Hr [Hs Hin]. unfold settle.
  destruct (inflight w !! i) as [t|] eqn:Ei; [|discriminate]. simpl.
  destruct (resume t r) as [t'|] eqn:Er; [|discriminate]. simpl.
  intros [= <-]. apply spawn_keeps.
  - apply (resume_keeps t t' r); auto.
    rewrite Forall_forall in Hin. apply Hin. eapply list_elem_of_lookup_2, Ei.
  - split; [exact Hs|]. simpl. now apply Forall_delete.
Qed.

End Keeps.

Lemma ids_markAsRead_update (i : jsval) (l : list jsobj) :
  ids (markAsRead_update i l) = ids l.
Proof.
  unfold ids, markAsRead_update. rewrite map_map. apply map_ext.
  intros x. destruct (strict_eq _ _); [apply with_read_id | reflexivity].
Qed.

Lemma ids_markAllAsRead_update (l : list jsobj) : ids (markAllAsRead_update l) = ids l.
Proof.
  unfold ids, markAllAsRead_update. rewrite map_map. apply map_ext.
  intros x. apply with_read_id.
Qed.

Lemma NoDup_ids_delete (i : jsval) (l : list jsobj) :
  NoDup (ids l) -> NoDup (ids (deleteNotification_update i l)).
Proof.
  unfold ids, deleteNotification_update.
  induction l as [|x l IH]; simpl; [auto|].
  intros Hnd. apply NoDup_cons in Hnd as [Hx Hnd].
  destruct (negb _); simpl; [|auto].
  apply NoDup_cons. split; [|auto].
  intros Hin. apply Hx. apply list_elem_of_In in Hin. apply list_elem_of_In.
  apply in_map_iff in Hin as (y & Hy & Hiny). apply in_map_iff.
  exists y. split; [exact Hy|]. now apply filter_In in Hiny as [? _].
Qed.

(** Settles the obligations of [keeps unique_ids list_unique] for a handler
    of the component: walks through its statements and the outcomes of its
    requests. *)
Ltac keeps_unique :=
  repeat (cbn;
    match goal with
    | |- True => exact I
    | |- _ /\ _ => split
    | |- forall _, _ => intro
    | H : forall d, Fulfilled ?x = Fulfilled d -> list_unique d |- _ =>
        pose proof (H x eq_refl); clear H
    | H : forall d, Rejected _ = Fulfilled d -> _ |- _ => clear H
    | |- context [await ?o] => destruct o
    | |- context [notificationsList ?d] =>
        match goal with
        | H : list_unique d |- _ =>
            let l := fresh "l" in
            let E := fresh "E" in
            destruct (notificationsList d) as [?|l] eqn:E;
            [clear H | apply H in E; clear H]
        end
    | |- context [no_token ?t] => destruct (no_token t)
    | |- context [match ?t with Some _ => _ | None => _ end] => destruct t
    | |- context [if String.eqb ?a ?b then _ else _] => destruct (String.eqb a b)
    | H : unique_ids ?s |- unique_ids _ => exact H
    | H : NoDup (ids ?l) |- unique_ids _ => exact H
    | H : unique_ids ?s |- unique_ids _ =>
        unfold unique_ids in *; cbn in *;
        first [ now rewrite ids_markAsRead_update
              | now rewrite ids_markAllAsRead_update
              | now apply NoDup_ids_delete
              | now apply handleNewNotification_update_NoDup
              | apply NoDup_nil; exact I ]
    end).

Lemma keeps_initializeApp : keeps unique_ids list_unique initializeApp.
Proof. unfold initializeApp, loadUserProfile. keeps_unique. Qed.

Lemma keeps_handleLogin (email password : string) :
  keeps unique_ids list_unique (handleLogin email password).
Proof. unfold handleLogin. keeps_unique. Qed.

Lemma keeps_markAsRead (i : jsval) : keeps unique_ids list_unique (markAsRead i).
Proof.
  unfold markAsRead. keeps_unique.
  unfold unique_ids in *. unfold sendMessage.
  repeat match goal with
         | |- context [match ?x with _ => _ end] => destruct x
         end; assumption.
Qed.

Lemma keeps_deleteNotification (i : jsval) :
  keeps unique_ids list_unique (deleteNotification i).
Proof. unfold deleteNotification. keeps_unique. Qed.

Lemma keeps_markAllAsRead : keeps unique_ids list_unique markAllAsRead.
Proof. unfold markAllAsRead. keeps_unique. Qed.

Lemma unique_ids_same_store (s s' : app) :
  store s' = store s -> unique_ids s -> unique_ids s'.
Proof. unfold unique_ids. now intros ->. Qed.

Lemma sync_inv (f : app -> app) (w : world) :
  (unique_ids (app_state w) -> unique_ids (f (app_state w))) ->
  session_inv w -> session_inv (sync f w).
Proof. intros Hf [Hs Hin]. split; simpl; auto. Qed.

Lemma onmessage_unique (event_data : frame) (clk : clock) (s : app) :
  unique_ids s ->
  unique_ids (match ws_onmessage handleNewNotification event_data clk s with
              | Normal s' => s'
              | Thrown _ s' => s'
              end).
Proof.
  intros Hs. unfold ws_onmessage, ws_onmessage_try.
  destruct event_data as [|data h]; [exact Hs|].
  destruct (prop h data "type") as [e|ty]; [exact Hs|].
  destruct (strict_eq ty (JStr "notification")).
  - destruct (prop h data "data") as [e|nd]; [exact Hs|].
    destruct (pushed_record h nd clk) as [e|r]; [exact Hs|].
    unfold unique_ids. rewrite store_handleNewNotification.
    now apply handleNewNotification_update_NoDup.
  - destruct (strict_eq ty (JStr "unread_count")); exact Hs.
Qed.

Lemma mount_inv (tok : option string) (perm : permission) :
  session_inv (mount tok perm).
Proof.
  unfold mount. apply sync_inv.
  - intros Hs. eapply unique_ids_same_store; [|exact Hs].
    rewrite store_commit. unfold request_permission_effect.
    now destruct (permission_state _).
  - apply (spawn_keeps unique_ids list_unique); [apply keeps_initializeApp|].
    split; simpl; constructor.
Qed.

Lemma handle_inv (ev : event) (w w' : world) :
  event_ok list_unique ev -> session_inv w -> handle ev w = Some w' -> session_inv w'.
Proof.
  intros Hev Hw. destruct ev; simpl.
  - intros H. apply (settle_keeps unique_ids list_unique i r w w'); auto.
  - destruct (readyState_of h _) as [[]|]; try discriminate.
    intros [= <-]. apply sync_inv; auto.
  - destruct (readyState_of h _) as [[]|]; try discriminate.
    pose proof (onmessage_unique event_data clk (app_state w) (proj1 Hw)) as Hm.
    destruct (ws_onmessage _ _ _ _); intros [= <-]; apply sync_inv; auto.
  - destruct (readyState_of h _) as [[]|]; try discriminate;
      intros [= <-]; apply sync_inv; auto;
      apply unique_ids_same_store; unfold ws_onclose;
      destruct (negb (code =? 1000)%Z); reflexivity.
  - destruct (readyState_of h _) as [[]|]; try discriminate;
      intros [= <-]; apply sync_inv; auto.
  - destruct (timers _ !! i); [|discriminate].
    intros [= <-]. apply sync_inv; auto.
  - destruct (permission_state (env (app_state w))),
      (permission_requested (env (app_state w))); try discriminate.
    intros [= <-]. apply sync_inv; auto.
  - destruct (shows_login _); [|discriminate]. intros [= <-].
    apply (spawn_keeps unique_ids list_unique); [apply keeps_handleLogin | exact Hw].
  - destruct (shows_centre _); [|discriminate]. intros [= <-].
    apply sync_inv; [|exact Hw]. intros _. apply NoDup_nil. exact I.
  - destruct (shows_centre _); [|discriminate]. intros [= <-]. apply sync_inv; auto.
  - destruct (_ && _); [|discriminate]. intros [= <-]. apply sync_inv; auto.
  - destruct (shows_centre _); [|discriminate]. intros [= <-].
    apply (spawn_keeps unique_ids list_unique); [apply keeps_markAsRead | exact Hw].
  - destruct (shows_centre _); [|discriminate]. intros [= <-].
    apply (spawn_keeps unique_ids list_unique); [apply keeps_deleteNotification | exact Hw].
  - destruct (_ && _); [|discriminate]. intros [= <-].
    apply (spawn_keeps unique_ids list_unique); [apply keeps_markAllAsRead | exact Hw].
Qed.

Lemma step_inv (ev : event) (w w' : world) :
  event_ok list_unique ev -> session_inv w -> step ev w = Some w' -> session_inv w'.
Proof.
  intros Hev Hw. unfold step.
  destruct (handle ev w) as [w1|] eqn:E; [|discriminate].
  intros [= <-]. apply sync_inv; [|eapply handle_inv; eauto].
  apply unique_ids_same_store, store_commit.
Qed.

(** X20: records stay unique by id through a whole session: whatever the events
    (pushes, clicks, settled requests, socket events, timers), provided the
    lists the gateway answers with have no duplicate ids, no state of the
    session holds two records with the same id. *)
Theorem session_keeps_ids_unique
    (tok : option string) (perm : permission) (evs : list event) (w : world) :
  Forall (event_ok list_unique) evs ->
  run evs (mount tok perm) = Some w ->
  NoDup (ids (store (app_state w))).
Proof.
  intros Hevs Hrun.
  assert (Hinv : session_inv w); [|exact (proj1 Hinv)].
  pose proof (mount_inv tok perm) as H0.
  revert Hrun H0. generalize (mount tok perm) as w0.
  induction Hevs as [|ev evs Hev Hevs IH]; intros w0 Hrun H0.
  - now injection Hrun as <-.
  - rewrite run_cons in Hrun.
    destruct (step ev w0) as [w1|] eqn:E; [|discriminate].
    simpl in Hrun. apply (IH w1 Hrun). eapply step_inv; eauto.
Qed.

Lemma session_keeps_ids_unique_witness :
  Forall (event_ok list_unique) (early_push_prefix ++ [early_push; late_seed; early_push]) /\
  exists w,
    run (early_push_prefix ++ [early_push; late_seed; early_push])
        (mount (Some "tok") PermGranted) = Some w /\
    NoDup (ids (store (app_state w))).
Proof.
  assert (Hok : Forall (event_ok list_unique)
                  (early_push_prefix ++ [early_push; late_seed; early_push])).
  { repeat constructor. intros l [= <-].
    apply NoDup_cons. split; [|apply NoDup_singleton].
    intros Hin. apply list_elem_of_singleton in Hin. discriminate Hin. }
  split; [exact Hok|].
  pose (w0 := mount (Some "tok") PermGranted).
  pose (w := default w0 (run (early_push_prefix ++ [early_push; late_seed; early_push]) w0)).
  assert (Hrun : run (early_push_prefix ++ [early_push; late_seed; early_push]) w0 = Some w)
    by (vm_compute; reflexivity).
  exists w. split; [exact Hrun|].
  exact (session_keeps_ids_unique (Some "tok") PermGranted _ w Hok Hrun).
Defined.

(** ** The shape of the list response, and the reconnect timer *)

(** X21: the bootstrap looks at a list response only through the list it reads
    out of it: a bare array and an object wrapping the same array under
    [notifications] lead to the same state, and so do any two responses read
    as the same list (an object without the array and a bare number both
    count as the empty list). *)
Theorem seed_shape_tolerant
    (tok : string) (perm : permission) (profileData : jsobj)
    (d1 d2 : notifications_data) :
  tok <> "" -> notificationsList d1 = notificationsList d2 ->
  run [Settle 0 (Profile_settled (Fulfilled profileData));
       Settle 0 (Notifications_settled (Fulfilled d1))] (mount (Some tok) perm)
  = run [Settle 0 (Profile_settled (Fulfilled profileData));
         Settle 0 (Notifications_settled (Fulfilled d2))] (mount (Some tok) perm).
Proof.
  intros Htok Hd. apply String.eqb_neq in Htok.
  unfold run, step, handle, settle, mount, spawn, initializeApp. cbn.
  rewrite Htok. destruct perm; cbn; rewrite Hd; reflexivity.
Qed.

Lemma seed_shape_tolerant_witness :
  let l := [sample_record 7 false; sample_record 8 true] in
  "tok" <> "" /\ notificationsList (NDArray l) = notificationsList (NDObject (Some l)) /\
  run [Settle 0 (Profile_settled (Fulfilled sample_profile));
       Settle 0 (Notifications_settled (Fulfilled (NDArray l)))]
      (mount (Some "tok") PermGranted)
  = run [Settle 0 (Profile_settled (Fulfilled sample_profile));
         Settle 0 (Notifications_settled (Fulfilled (NDObject (Some l))))]
        (mount (Some "tok") PermGranted).
Proof.
  intros l.
  assert (Htok : "tok" <> "") by discriminate.
  split; [exact Htok|]. split; [reflexivity|].
  exact (seed_shape_tolerant "tok" PermGranted sample_profile
           (NDArray l) (NDObject (Some l)) Htok eq_refl).
Defined.

(** X22: a reconnect timer that fires in a state whose effect is up to date
    constructs no socket and starts no request: sockets, component cells,
    hook cells and pending requests are what they were. *)
Theorem timer_fire_changes_nothing (w w' : world) (i : nat) :
  userId_of (app_state w) = effect_userId (ws_hook (app_state w)) ->
  step (TimerFire i) w = Some w' ->
  websockets (env (app_state w')) = websockets (env (app_state w)) /\
  comp (app_state w') = comp (app_state w) /\
  ws_hook (app_state w') = ws_hook (app_state w) /\
  inflight w' = inflight w /\
  timers (env (app_state w')) = delete i (timers (env (app_state w))) /\
  console (env (app_state w'))
  = (console (env (app_state w)) ++ ["Attempting to reconnect..."])%list.
Proof.
  intros Hdep. unfold step, handle.
  destruct (timers (env (app_state w)) !! i); [|discriminate].
  intros [= <-]. simpl. rewrite commit_stable by exact Hdep.
  repeat split.
Qed.

Lemma timer_fire_changes_nothing_witness :
  exists w w',
    run abnormal_close_trace (mount (Some "tok") PermGranted) = Some w /\
    userId_of (app_state w) = effect_userId (ws_hook (app_state w)) /\
    step (TimerFire 0) w = Some w' /\
    websockets (env (app_state w')) = websockets (env (app_state w)).
Proof.
  pose (w0 := mount (Some "tok") PermGranted).
  pose (w := default w0 (run abnormal_close_trace w0)).
  pose (w' := default w (step (TimerFire 0) w)).
  assert (Hrun : run abnormal_close_trace w0 = Some w) by (vm_compute; reflexivity).
  assert (Hdep : userId_of (app_state w) = effect_userId (ws_hook (app_state w)))
    by (vm_compute; reflexivity).
  assert (Hstep : step (TimerFire 0) w = Some w') by (vm_compute; reflexivity).
  exists w, w'. split; [exact Hrun|]. split; [exact Hdep|]. split; [exact Hstep|].
  exact (proj1 (timer_fire_changes_nothing w w' 0 Hdep Hstep)).
Defined.
